(** * enex2notion: formatting properties of rich-text runs

    A shallow embedding of
    [enex2notion/note_parser/string_extractor_properties.py] and of the
    parts of the note parser that [tests/test_note_parser.py] exercises.

    Conventions of the embedding.
    - A Python [str] is a [string]; the text is taken to be ASCII, which is
      where [str.lower] and the regular expression class [\s] are modelled.
    - A Python tuple of strings such as [("b",)] or [("a", url)] is a
      [list string]; the returned [set] of tuples is a [gset (list string)].
    - A [bs4.Tag] is its name and its attribute dictionary.
    - An exception is a value of [exn]; a call that may raise returns a
      [result]. Calls to [logger] are collected in the order they happen.
    - What the module reaches outside the repository (the links file, the
      Notion client, [html.unescape], [extract_color]) is a field of
      [Env]. *)

From Stdlib Require Import String Ascii List Bool Arith Lia.
From stdpp Require Import base option list gmap strings.

Open Scope string_scope.

(* ===================================================================== *)
(** ** Python strings *)
(* ===================================================================== *)

Module Str.

(** [p] is a prefix of [s]: [s.startswith(p)]. *)
Fixpoint starts_with (p s : string) : bool :=
  match p, s with
  | EmptyString, _ => true
  | String a p', String b s' => if Ascii.eqb a b then starts_with p' s' else false
  | String _ _, EmptyString => false
  end.

(** [s] with the prefix [p] removed, when it has it. *)
Fixpoint strip_prefix (p s : string) : option string :=
  match p, s with
  | EmptyString, _ => Some s
  | String a p', String b s' => if Ascii.eqb a b then strip_prefix p' s' else None
  | String _ _, EmptyString => None
  end.

(** [needle in hay] on strings. *)
Fixpoint contains (needle hay : string) : bool :=
  starts_with needle hay ||
  match hay with
  | EmptyString => false
  | String _ rest => contains needle rest
  end.

(** [s.split(sep)] for a separator of one character: never an empty list. *)
Fixpoint split (sep : ascii) (s : string) : list string :=
  match s with
  | EmptyString => [EmptyString]
  | String c rest =>
      if Ascii.eqb c sep then EmptyString :: split sep rest
      else match split sep rest with
           | [] => [String c EmptyString]
           | w :: ws => String c w :: ws
           end
  end.

(** [str.lower] on ASCII: the letters A-Z move to a-z. *)
Definition lower_char (c : ascii) : ascii :=
  let n := nat_of_ascii c in
  if ((65 <=? n) && (n <=? 90))%nat then ascii_of_nat (n + 32) else c.

Fixpoint lower (s : string) : string :=
  match s with
  | EmptyString => EmptyString
  | String c rest => String (lower_char c) (lower rest)
  end.

(** The ASCII characters of the class [\s] of a [str] pattern:
    tab, line feed, vertical tab, form feed, carriage return, the
    separators 28-31 and the space. *)
Definition is_space (c : ascii) : bool :=
  let n := nat_of_ascii c in
  (((9 <=? n) && (n <=? 13)) || ((28 <=? n) && (n <=? 31)) || (n =? 32))%nat.

Definition newline : ascii := ascii_of_nat 10.

(** The double quote, as a string of one character. *)
Definition dquote : string := String (ascii_of_nat 34) EmptyString.

Fixpoint skip_space (s : string) : string :=
  match s with
  | EmptyString => EmptyString
  | String c rest => if is_space c then skip_space rest else s
  end.

(** Every character of [s] satisfies [p]. *)
Fixpoint all_chars (p : ascii -> bool) (s : string) : bool :=
  match s with
  | EmptyString => true
  | String c rest => p c && all_chars p rest
  end.

End Str.

(* ===================================================================== *)
(** ** Exceptions, results and the log *)
(* ===================================================================== *)

(** An exception: its class and [str(e)]. *)
Inductive exn : Type :=
| Exn (cls : string) (msg : string).

Definition str_exn (e : exn) : string :=
  match e with Exn _ msg => msg end.

Definition IndexError : exn := Exn "IndexError" "list index out of range".

(** What a call that may raise gives back. *)
Inductive result (A : Type) : Type :=
| Ok (a : A)
| Raise (e : exn).

Arguments Ok {A} a.
Arguments Raise {A} e.

Definition bind {A B : Type} (r : result A) (k : A -> result B) : result B :=
  match r with
  | Ok a => k a
  | Raise e => Raise e
  end.

Inductive level : Type := ERROR | WARNING | DEBUG.

(** One call of [logger.error], [logger.warning] or [logger.debug]. *)
Record log_record : Type := LogRecord {
  levelname : level;
  message : string
}.

(** [l[-2]]: the element before the last, or [IndexError]. *)
Definition index_neg2 {A : Type} (l : list A) : result A :=
  match rev l with
  | _ :: x :: _ => Ok x
  | _ => Raise IndexError
  end.

(** [l[0]]. *)
Definition index_0 {A : Type} (l : list A) : result A :=
  match l with
  | x :: _ => Ok x
  | [] => Raise IndexError
  end.

(* ===================================================================== *)
(** ** Tags, property tuples and the collaborators *)
(* ===================================================================== *)

(** A [bs4.Tag]: [tag.name] and the attribute dictionary behind
    [tag.get(key)] and [tag[key]]. *)
Record Tag : Type := mkTag {
  name : string;
  attrs : gmap string string
}.

(** [tag.get(key)]: [None] when the attribute is absent. *)
Definition tag_get (tag : Tag) (key : string) : option string :=
  attrs tag !! key.

(** Truth value of [tag.get(key)]: neither [None] nor the empty string. *)
Definition truthy (v : option string) : bool :=
  match v with
  | Some (String _ _) => true
  | _ => false
  end.

(** A property tuple: [("b",)], [("h", color)], [("a", url)]. *)
Definition prop : Type := list string.

(** What a handler of [tag_map] returns: [None], one tuple, or a list of
    tuples. *)
Inductive handled : Type :=
| RNone
| RTuple (t : prop)
| RList (l : list prop).

(** One page of the search results: what
    [result["properties"]["Title"]["title"][0]["plain_text"]] evaluates
    to (it raises on a page without that path) and [result["url"]]. *)
Record page : Type := mkPage {
  plain_text : result string;
  url : string
}.

(** The loaded links file: the dictionary's items in iteration order.
    A loaded dictionary has pairwise distinct keys. *)
Abbreviation links := (list (string * string)).

(** What the module reaches outside the repository. *)
Record Env : Type := mkEnv {
  (** [enex2notion.utils_colors.extract_color] *)
  extract_color : string -> option string;
  (** [html.unescape] *)
  unescape : string -> string;
  (** [json.load] of the file [args.links_dict] *)
  links_dict : result links;
  (** [Client(...).request(path="search", method="post", body=payload)["results"]],
      as a function of the payload's query *)
  notion_search : string -> result (list page)
}.

(** [key in d.keys()] and [d[key]] together. *)
Fixpoint dict_get (d : links) (key : string) : option string :=
  match d with
  | [] => None
  | (k, v) :: rest => if String.eqb k key then Some v else dict_get rest key
  end.

(* ===================================================================== *)
(** ** string_extractor_properties.py *)
(* ===================================================================== *)

(** The comprehension of [_get_evernote_title]:
    [[value for key, value in d.items() if evernote_id in key.lower()]]. *)
Definition matching_values (evernote_id : string) (d : links) : list string :=
  map snd (filter (fun kv => Str.contains evernote_id (Str.lower (fst kv)) = true) d).

(** No key of [d] contains the identifier. *)
Definition no_match (evernote_id : string) (d : links) : Prop :=
  Forall (fun kv => Str.contains evernote_id (Str.lower kv.1) = false) d.

(** [evernote_url.split("/")[-2].lower()] *)
Definition evernote_id_of (evernote_url : string) : result string :=
  bind (index_neg2 (Str.split "/" evernote_url)) (fun seg => Ok (Str.lower seg)).

Definition _get_evernote_title (E : Env) (evernote_url : string) : result string :=
  bind (links_dict E) (fun translation_dict =>
    match dict_get translation_dict evernote_url with
    | Some title => Ok title
    | None =>
        bind (evernote_id_of evernote_url) (fun evernote_id =>
          index_0 (matching_values evernote_id translation_dict))
    end).

(** The loop of [_get_notion_url_from_title] over the results. *)
Fixpoint first_titled (title : string) (results : list page) : result (option string) :=
  match results with
  | [] => Ok None
  | r :: rest =>
      bind (plain_text r) (fun t =>
        if String.eqb t title then Ok (Some (url r)) else first_titled title rest)
  end.

(** A page whose title can be read and is not the one looked for. *)
Definition other_title (title : string) (r : page) : Prop :=
  exists t, plain_text r = Ok t /\ t <> title.

Definition _get_notion_url_from_title (E : Env) (title : string) : result (option string) :=
  let title := unescape E title in
  bind (notion_search E (Str.dquote ++ title ++ Str.dquote)) (fun results =>
    first_titled title results).

Definition _get_notion_url (E : Env) (evernote_url : string) : result (option string) :=
  bind (_get_evernote_title E evernote_url) (_get_notion_url_from_title E).

(** [re.match(r".*" + key + r"\s*" + value, style)] for literal [key] and
    [value]: [.*] stays on the first line, [\s*] takes the white space
    after the key. *)
Definition declared_here (key value s : string) : bool :=
  match Str.strip_prefix key s with
  | Some rest => Str.starts_with value (Str.skip_space rest)
  | None => false
  end.

Fixpoint re_match_decl (key value s : string) : bool :=
  declared_here key value s ||
  match s with
  | EmptyString => false
  | String c rest =>
      if Ascii.eqb c Str.newline then false else re_match_decl key value rest
  end.

Definition _resolve_span (E : Env) (tag : Tag) : list prop :=
  match tag_get tag "style" with
  | Some (String c s) =>
      let style := String c s in
      ((match extract_color E style with
        | Some color => [["h"; color]]
        | None => []
        end)
       ++ (if re_match_decl "font-weight:" "bold" style then [["b"]] else [])
       ++ (if re_match_decl "font-style:" "italic" style then [["i"]] else []))%list
  | _ => []
  end.

(** [_resolve_link]: the returned value and the records it logs. After
    the [except] clause control leaves the [if] and reaches the final
    [return None]. *)
Definition _resolve_link (E : Env) (tag : Tag) : handled * list log_record :=
  match tag_get tag "href" with
  | Some (String c s) =>
      let evernote_url := String c s in
      if Str.contains "evernote://" evernote_url then
        match _get_notion_url E evernote_url with
        | Ok None =>
            (RTuple ["a"; evernote_url],
             [LogRecord ERROR ("Notion URL retrieval failed: " ++ evernote_url)])
        | Ok (Some notion_url) => (RTuple ["a"; notion_url], [])
        | Raise e =>
            (RNone,
             [LogRecord ERROR ("Notion URL retrieval failed: " ++ evernote_url
                               ++ " with exception " ++ str_exn e)])
        end
      else (RTuple ["a"; evernote_url], [])
  | _ => (RNone, [])
  end.

(** [tag_map.get(tag.name)] applied to the tag, when the name is a key. *)
Definition tag_map (E : Env) (tag : Tag) : option (handled * list log_record) :=
  if String.eqb (name tag) "b" then Some (RTuple ["b"], [])
  else if String.eqb (name tag) "i" then Some (RTuple ["i"], [])
  else if String.eqb (name tag) "u" then Some (RTuple ["_"], [])
  else if String.eqb (name tag) "s" then Some (RTuple ["s"], [])
  else if String.eqb (name tag) "span" then Some (RList (_resolve_span E tag), [])
  else if String.eqb (name tag) "a" then Some (_resolve_link E tag)
  else None.

(** One turn of the loop of [resolve_string_properties]: the truth test
    of [tag_property], then [update] for a list and [add] otherwise. *)
Definition add_property (properties : gset prop) (tag_property : handled) : gset prop :=
  match tag_property with
  | RNone => properties
  | RTuple [] => properties
  | RTuple t => properties ∪ {[ t ]}
  | RList l => properties ∪ list_to_set l
  end.

Definition step (E : Env) (acc : gset prop * list log_record) (tag : Tag)
  : gset prop * list log_record :=
  match tag_map E tag with
  | Some (tag_property, logged) => (add_property acc.1 tag_property, (acc.2 ++ logged)%list)
  | None => acc
  end.

Definition resolve_string_properties (E : Env) (tags : list Tag)
  : gset prop * list log_record :=
  foldl (step E) (∅, []) tags.

(** The reading of [re.match(r".*" + key + r"\s*" + value, style)] as a
    statement about the text: the key, white space and the value occur
    in this order after a prefix that has no line break. *)
Definition declares (key value style : string) : Prop :=
  exists before ws after,
    style = before ++ key ++ ws ++ value ++ after
    /\ Str.all_chars (fun c => negb (Ascii.eqb c Str.newline)) before = true
    /\ Str.all_chars Str.is_space ws = true.

(** What one tag adds to the returned set. *)
Definition contribution (E : Env) (tag : Tag) : gset prop :=
  match tag_map E tag with
  | Some (tag_property, _) => add_property ∅ tag_property
  | None => ∅
  end.

(** The names that are keys of [tag_map]. *)
Definition tag_names : list string := ["b"; "i"; "u"; "s"; "span"; "a"].

(** Title resolution as the specification words it: the identifier is
    extracted first and looked up by exact key, and the substring search
    is the fallback. Compared with [_get_evernote_title] below. *)
Definition title_by_identifier (E : Env) (evernote_url : string) : result string :=
  bind (links_dict E) (fun translation_dict =>
    bind (evernote_id_of evernote_url) (fun evernote_id =>
      match dict_get translation_dict evernote_id with
      | Some title => Ok title
      | None => index_0 (matching_values evernote_id translation_dict)
      end)).

(** [s.rstrip()] and [s.strip()]: the white space at the ends removed. *)
Fixpoint rstrip (s : string) : string :=
  match s with
  | EmptyString => EmptyString
  | String c rest =>
      match rstrip rest with
      | EmptyString => if Str.is_space c then EmptyString else String c EmptyString
      | String _ _ as kept => String c kept
      end
  end.

Definition strip (s : string) : string := rstrip (Str.skip_space s).

(** A style declaration as the specification words it: the text
    [property: value] of a style sheet, in which the white space around
    the name and the value and the letter case do not count. Compared
    with the patterns of [_resolve_span] below. *)
Definition css_declaration (property value declaration : string) : bool :=
  match Str.split ":" declaration with
  | [p; v] =>
      String.eqb (Str.lower (strip p)) property
      && String.eqb (Str.lower (strip v)) value
  | _ => false
  end.

(** The style declares [property: value], as the specification words
    it: one of its declarations, which semicolons separate, does. *)
Definition css_declares (property value style : string) : bool :=
  existsb (css_declaration property value) (Str.split ";" style).

(* ===================================================================== *)
(** ** Concrete collaborators used in the examples *)
(* ===================================================================== *)

(** The part of [html.unescape] that rewrites the entity [&amp;]; the two
    agree on a text whose only ampersands start that entity. *)
Fixpoint unescape_amp_from (skip : nat) (s : string) : string :=
  match s with
  | EmptyString => EmptyString
  | String c rest =>
      match skip with
      | S k => unescape_amp_from k rest
      | O =>
          if Str.starts_with "&amp;" s
          then String c (unescape_amp_from 4 rest)
          else String c (unescape_amp_from 0 rest)
      end
  end.

Definition unescape_amp : string -> string := unescape_amp_from 0.

(** A links file with two entries and a workspace with one page. *)
Definition demo_links : links :=
  [("evernote:///view/1/s1/aaaa-1111/aaaa-1111/", "Groceries");
   ("evernote:///view/1/s1/bbbb-2222/bbbb-2222/", "Q&amp;A")].

Definition demo_pages : list page :=
  [mkPage (Ok "Q&A") "https://www.notion.so/qa-0123"].

Definition demo_env : Env := {|
  extract_color := fun style =>
    if Str.contains "color:red" style then Some "red" else None;
  unescape := unescape_amp;
  links_dict := Ok demo_links;
  notion_search := fun _ => Ok demo_pages
|}.

(** A links file whose keys are bare identifiers, one containing the
    other. *)
Definition id_links : links := [("xabcx", "Second"); ("abc", "First")].

Definition id_env : Env := {|
  extract_color := fun _ => None;
  unescape := unescape_amp;
  links_dict := Ok id_links;
  notion_search := fun _ => Ok []
|}.

(** The same links file when the search request fails. *)
Definition offline_env : Env := {|
  extract_color := extract_color demo_env;
  unescape := unescape_amp;
  links_dict := Ok demo_links;
  notion_search := fun _ => Raise (Exn "RequestTimeoutError" "Request to Notion API has timed out")
|}.

(** An internal link to a note that the links file does not list, and
    one to a note that it lists. *)
Definition missing_href : string := "evernote:///view/1/s1/cccc-3333/cccc-3333/".

Definition listed_href : string := "evernote:///view/1/s1/aaaa-1111/aaaa-1111/".



Definition anchor (href : string) : Tag := mkTag "a" {[ "href" := href ]}.

Definition span (style : string) : Tag := mkTag "span" {[ "style" := style ]}.

Definition bold : Tag := mkTag "b" ∅.

(** A workspace whose first page has no [Title] property, as a row of a
    database has: reading its title raises [KeyError]. *)
Definition untitled_env : Env := {|
  extract_color := fun _ => None;
  unescape := unescape_amp;
  links_dict := Ok demo_links;
  notion_search := fun _ =>
    Ok [mkPage (Raise (Exn "KeyError" "'Title'")) "https://www.notion.so/row-4567";
        mkPage (Ok "Groceries") "https://www.notion.so/groceries-89ab"]
|}.

(** A links file that holds the empty dictionary. *)
Definition no_links_env : Env := {|
  extract_color := fun _ => None;
  unescape := unescape_amp;
  links_dict := Ok [];
  notion_search := fun _ => Ok demo_pages
|}.

(* ===================================================================== *)
(** ** Segments of a link *)
(* ===================================================================== *)

(** [c in s] for one character [c]. *)
Definition has_char (c : ascii) (s : string) : bool :=
  Str.contains (String c EmptyString) s.

(** [sep.join(l)], by which the segments of [s.split(sep)] give [s] back. *)
Fixpoint join (sep : ascii) (l : list string) : string :=
  match l with
  | [] => EmptyString
  | w :: rest =>
      match rest with
      | [] => w
      | _ :: _ => w ++ String sep (join sep rest)
      end
  end.

(* ===================================================================== *)
(** ** The table builder *)
(* ===================================================================== *)

Module Table.

(** Modelled from the spec: the table builder of the note parser is not
    under src/. A cell of the markup: its column-span attribute, when it
    has one, and its resolved text. *)
Record td : Type := mkTd {
  colspan : option nat;
  content : string
}.

(** Modelled from the spec: the table builder of the note parser is not
    under src/. The columns a cell occupies: its column span, one
    without the attribute, and never fewer than the one that holds its
    text. *)
Definition columns (c : td) : nat :=
  match colspan c with
  | Some n => Nat.max 1 n
  | None => 1
  end.

(** Modelled from the spec: the table builder of the note parser is not
    under src/. A cell occupies as many grid columns as its column span:
    its text, then empty-text placeholders. *)
Definition expand_cell (c : td) : list string :=
  content c :: replicate (columns c - 1) EmptyString.

(** Modelled from the spec: the table builder of the note parser is not
    under src/. The grid columns of one row of the markup. *)
Definition expand_row (r : list td) : list string :=
  concat (map expand_cell r).

(** Modelled from the spec: the table builder of the note parser is not
    under src/. The column count of the table: that of its widest row. *)
Definition max_columns (rows : list (list td)) : nat :=
  foldr Nat.max 0 (map (fun r => length (expand_row r)) rows).

(** Modelled from the spec: the table builder of the note parser is not
    under src/. A short row gets empty-text cells on the right. *)
Definition pad_row (width : nat) (r : list string) : list string :=
  (r ++ replicate (width - length r) EmptyString)%list.

(** Modelled from the spec: the table builder of the note parser is not
    under src/. The rows of the table block, as [iter_rows] lists them. *)
Definition iter_rows (rows : list (list td)) : list (list string) :=
  map (fun r => pad_row (max_columns rows) (expand_row r)) rows.

(** The table of [test_table_padded]. *)
Definition test_table_padded : list (list td) :=
  [[mkTd (Some 2) "test1"];
   [mkTd None "test2"; mkTd None "test3"]].

End Table.

(* ===================================================================== *)
(** ** Notes: embedded media and the parse boundary *)
(* ===================================================================== *)

Module NoteParser.

(** Modelled from the spec: the block classes of the note parser are not
    under src/. The embedded-media variants, each with the content hash
    of its resource, and whatever the rest of the dispatcher builds. *)
Inductive block (B : Type) : Type :=
| NotionImageBlock (md5_hash : string)
| NotionVideoBlock (md5_hash : string)
| NotionAudioBlock (md5_hash : string)
| NotionPDFBlock (md5_hash : string)
| NotionFileBlock (md5_hash : string)
| OtherBlock (b : B).

Arguments NotionImageBlock {B} md5_hash.
Arguments NotionVideoBlock {B} md5_hash.
Arguments NotionAudioBlock {B} md5_hash.
Arguments NotionPDFBlock {B} md5_hash.
Arguments NotionFileBlock {B} md5_hash.
Arguments OtherBlock {B} b.

(** Modelled from the spec: the markup tree is not under src/. A sibling
    of the markup: an embedded-media element with its mime type and
    content hash, or any other node. *)
Inductive node (N : Type) : Type :=
| EnMedia (mime hash : string)
| OtherNode (n : N).

Arguments EnMedia {N} mime hash.
Arguments OtherNode {N} n.

(** Modelled from the spec: the block dispatcher is not under src/. The
    variant of an embedded-media block, by the prefix of its mime type. *)
Definition media_block {B : Type} (mime hash : string) : block B :=
  if Str.starts_with "image" mime then NotionImageBlock hash
  else if Str.starts_with "video" mime then NotionVideoBlock hash
  else if Str.starts_with "audio" mime then NotionAudioBlock hash
  else if String.eqb mime "application/pdf" then NotionPDFBlock hash
  else NotionFileBlock hash.

Section Traversal.

(** The nodes that are not embedded media, the blocks they become, and
    the rest of the dispatcher. *)
Variables N B : Type.
Variable dispatch_other : N -> list (block B) * list log_record.

(** The resource table supplied by the caller: the content hashes of the
    note's resources. *)
Variable resources : gset string.

(** Modelled from the spec: the resource extractor is not under src/.
    The warning of a reference that is not in the table, with the words
    [test_bad_resource] looks for. *)
Definition unresolved_warning : log_record :=
  LogRecord WARNING "Failed to resolve resource".

(** Modelled from the spec: the resource extractor and the block
    dispatcher are not under src/. A reference whose hash is not in the
    table is logged and yields no block. *)
Definition dispatch (n : node N) : list (block B) * list log_record :=
  match n with
  | EnMedia mime hash =>
      if decide (hash ∈ resources) then ([media_block mime hash], [])
      else ([], [unresolved_warning])
  | OtherNode o => dispatch_other o
  end.

(** Modelled from the spec: the traversal of sibling nodes is not under
    src/. Blocks and log records are collected in document order. *)
Fixpoint parse_siblings (nodes : list (node N)) : list (block B) * list log_record :=
  match nodes with
  | [] => ([], [])
  | n :: rest =>
      let here := dispatch n in
      let after := parse_siblings rest in
      ((here.1 ++ after.1)%list, (here.2 ++ after.2)%list)
  end.

(** The markup parser: the sibling nodes of the note's root, or the
    exception it raises on text that is no tree. *)
Variable parse_markup : string -> result (list (node N)).

(** Modelled from the spec: [parse_note] is not under src/. The error
    of a note that is no tree, with the words [test_bad_note] looks
    for. *)
Definition extract_error : log_record :=
  LogRecord ERROR "Failed to extract".

(** Modelled from the spec: [parse_note] is not under src/. A failure of
    the markup parser is caught here, logged, and the note yields the
    empty forest. *)
Definition parse_note (content : string) : list (block B) * list log_record :=
  match parse_markup content with
  | Ok nodes => parse_siblings nodes
  | Raise _ => ([], [extract_error])
  end.

End Traversal.

(** A dispatcher for the examples: a node that is no embedded media is a
    text and becomes one block; a markup parser that fails on the text
    of [test_bad_note] and otherwise finds the one media element of
    [test_bad_resource]. *)
Definition text_dispatch (text : string) : list (block string) * list log_record :=
  ([OtherBlock text], []).

Definition test_markup (content : string) : result (list (node string)) :=
  if String.eqb content "bad" then Raise (Exn "ParseError" "not a note")
  else Ok [EnMedia "fake/mime" "fake_hash"].

End NoteParser.

(* ===================================================================== *)
(** ** Links *)
(* ===================================================================== *)

Section Links.

Context (E : Env).


Lemma resolve_link_raised (tag : Tag) (href : string) (e : exn) :
  tag_get tag "href" = Some href ->
  Str.contains "evernote://" href = true ->
  _get_notion_url E href = Raise e ->
  _resolve_link E tag =
    (RNone, [LogRecord ERROR ("Notion URL retrieval failed: " ++ href
                              ++ " with exception " ++ str_exn e)]).
Proof.
  intros Hget Hin Hraise. unfold _resolve_link. rewrite Hget.
  destruct href as [|c s]; [discriminate|]. by rewrite Hin, Hraise.
Qed.

Lemma resolve_link_no_match (tag : Tag) (href : string) :
  tag_get tag "href" = Some href ->
  Str.contains "evernote://" href = true ->
  _get_notion_url E href = Ok None ->
  _resolve_link E tag =
    (RTuple ["a"; href], [LogRecord ERROR ("Notion URL retrieval failed: " ++ href)]).
Proof.
  intros Hget Hin Hnone. unfold _resolve_link. rewrite Hget.
  destruct href as [|c s]; [discriminate|]. by rewrite Hin, Hnone.
Qed.

End Links.

(* ===================================================================== *)
(** ** The returned set *)
(* ===================================================================== *)

Section Properties.

Context (E : Env).

Lemma add_property_union (acc : gset prop) (p : handled) :
  add_property acc p = acc ∪ add_property ∅ p.
Proof.
  destruct p as [|[|s t]|l]; simpl; set_solver.
Qed.

Lemma step_properties (acc : gset prop * list log_record) (tag : Tag) :
  (step E acc tag).1 = acc.1 ∪ contribution E tag.
Proof.
  unfold step, contribution.
  destruct (tag_map E tag) as [[p logged]|]; simpl.
  - apply add_property_union.
  - set_solver.
Qed.

(** The loop only ever adds: the set after the loop is the set before it
    and what each tag contributes. *)
Lemma foldl_step_properties (tags : list Tag) (acc : gset prop * list log_record) :
  (foldl (step E) acc tags).1 = acc.1 ∪ ⋃ (contribution E <$> tags).
Proof.
  revert acc. induction tags as [|tag tags IH]; intros acc; simpl.
  - set_solver.
  - rewrite IH, step_properties. set_solver.
Qed.

Lemma resolve_string_properties_union (tags : list Tag) :
  (resolve_string_properties E tags).1 = ⋃ (contribution E <$> tags).
Proof.
  unfold resolve_string_properties. rewrite foldl_step_properties. set_solver.
Qed.

Lemma elem_of_resolve_string_properties (tags : list Tag) (p : prop) :
  p ∈ (resolve_string_properties E tags).1 <->
  exists tag, tag ∈ tags /\ p ∈ contribution E tag.
Proof.
  rewrite resolve_string_properties_union, elem_of_union_list. split.
  - intros (X & HX & Hp). apply list_elem_of_fmap in HX as (tag & -> & Htag). eauto.
  - intros (tag & Htag & Hp). exists (contribution E tag). split; [|done].
    apply list_elem_of_fmap. eauto.
Qed.

Lemma tag_map_unknown (tag : Tag) :
  name tag ∉ tag_names -> tag_map E tag = None.
Proof.
  intros Hname. unfold tag_map.
  assert (forall k, k ∈ tag_names -> String.eqb (name tag) k = false) as Hk.
  { intros k Hin. apply String.eqb_neq. intros Heq. apply Hname. by rewrite Heq. }
  rewrite !Hk; [done|unfold tag_names; set_solver..].
Qed.

End Properties.

(* ===================================================================== *)
(** ** Claims about links *)
(* ===================================================================== *)

Lemma tag_map_anchor (E : Env) (tag : Tag) :
  name tag = "a" -> tag_map E tag = Some (_resolve_link E tag).
Proof. intros Hname. unfold tag_map. by rewrite Hname. Qed.




(** C1, on the code. The links file does not list the note of
    [missing_href]: the title lookup raises [IndexError], the [except]
    clause logs the failure, and [_resolve_link] returns [None], so the
    anchor adds no link property. With the search request failing the
    same happens for a listed note. When the search answers and no page
    has the title, the original href is the property. *)
Theorem lookup_exception_drops_link :
  (Str.contains "evernote://" missing_href = true
   /\ _get_notion_url demo_env missing_href = Raise IndexError
   /\ _resolve_link demo_env (anchor missing_href)
      = (RNone,
         [LogRecord ERROR
            ("Notion URL retrieval failed: " ++ missing_href
             ++ " with exception list index out of range")])
   /\ resolve_string_properties demo_env [anchor missing_href]
      = (∅, [LogRecord ERROR
               ("Notion URL retrieval failed: " ++ missing_href
                ++ " with exception list index out of range")]))
  /\ (_get_evernote_title offline_env listed_href = Ok "Groceries"
      /\ _resolve_link offline_env (anchor listed_href)
         = (RNone,
            [LogRecord ERROR
               ("Notion URL retrieval failed: " ++ listed_href
                ++ " with exception Request to Notion API has timed out")]))
  /\ _resolve_link demo_env (anchor listed_href)
     = (RTuple ["a"; listed_href],
        [LogRecord ERROR ("Notion URL retrieval failed: " ++ listed_href)]).
Proof.
  repeat split; reflexivity.
Qed.

(* ===================================================================== *)
(** ** Title resolution *)
(* ===================================================================== *)

Lemma index_neg2_app {A : Type} (l : list A) (x y : A) :
  index_neg2 (l ++ [x; y]) = Ok x.
Proof.
  unfold index_neg2. replace (l ++ [x; y])%list with ((l ++ [x]) ++ [y])%list.
  - by rewrite !rev_unit.
  - by rewrite <- app_assoc.
Qed.

Lemma evernote_id_of_segments (evernote_url : string) (segs : list string) (seg last : string) :
  Str.split "/" evernote_url = (segs ++ [seg; last])%list ->
  evernote_id_of evernote_url = Ok (Str.lower seg).
Proof.
  intros Hsplit. unfold evernote_id_of. by rewrite Hsplit, index_neg2_app.
Qed.

Section Matching.

Context (evernote_id : string).

Lemma matching_values_no_match (d : links) :
  no_match evernote_id d -> matching_values evernote_id d = [].
Proof.
  unfold matching_values. induction 1 as [|[k v] d Hk _ IH]; [done|].
  rewrite filter_cons_False; [done|]. simpl in *. congruence.
Qed.

(** The comprehension keeps the order of the items: its first element
    comes from the first key that contains the identifier. *)
Lemma matching_values_first (pre post : links) (k v : string) :
  no_match evernote_id pre ->
  Str.contains evernote_id (Str.lower k) = true ->
  index_0 (matching_values evernote_id (pre ++ (k, v) :: post)) = Ok v.
Proof.
  intros Hpre Hk. unfold matching_values.
  rewrite filter_app, map_app. fold (matching_values evernote_id pre).
  rewrite (matching_values_no_match pre Hpre); simpl.
  by rewrite filter_cons_True.
Qed.

End Matching.

(** C3, as the code has it. The exact lookup is by the whole link; only
    when the link is no key is the identifier taken from it (the segment
    before the last slash, in lower case) and searched in the lower-cased
    keys, and the first key in the order of the file that contains it
    gives the title. With no such key the lookup raises [IndexError]. *)
Theorem evernote_title_lookup (E : Env) (d : links) (evernote_url : string) :
  links_dict E = Ok d ->
  (forall title,
      dict_get d evernote_url = Some title ->
      _get_evernote_title E evernote_url = Ok title)
  /\ (dict_get d evernote_url = None ->
      forall segs seg last,
        Str.split "/" evernote_url = (segs ++ [seg; last])%list ->
        (forall pre k v post,
            d = (pre ++ (k, v) :: post)%list ->
            no_match (Str.lower seg) pre ->
            Str.contains (Str.lower seg) (Str.lower k) = true ->
            _get_evernote_title E evernote_url = Ok v)
        /\ (no_match (Str.lower seg) d ->
            _get_evernote_title E evernote_url = Raise IndexError)).
Proof.
  intros Hd. unfold _get_evernote_title. rewrite Hd; simpl. split.
  - by intros title ->.
  - intros -> segs seg last Hsplit.
    rewrite (evernote_id_of_segments _ _ _ _ Hsplit); simpl. split.
    + intros pre k v post -> Hpre Hk. by apply matching_values_first.
    + intros Hnone. by rewrite matching_values_no_match.
Qed.

Lemma evernote_title_lookup_witness :
  _get_evernote_title id_env "evernote:///view/ABC/" = Ok "Second".
Proof.
  destruct (evernote_title_lookup id_env id_links "evernote:///view/ABC/" eq_refl)
    as [_ Hfallback].
  destruct (Hfallback eq_refl ["evernote:"; ""; ""; "view"] "ABC" "" eq_refl)
    as [Hfirst _].
  apply (Hfirst [] "xabcx" "Second" [("abc", "First")]).
  - reflexivity.
  - constructor.
  - reflexivity.
Defined.

(** C3, as the claim words it, fails: the identifier [abc] is a key of
    the file, an exact lookup of it gives [First], and the code returns
    the title of the earlier key [xabcx]. *)
Lemma title_not_by_identifier :
  evernote_id_of "evernote:///view/abc/" = Ok "abc"
  /\ dict_get id_links "abc" = Some "First"
  /\ title_by_identifier id_env "evernote:///view/abc/" = Ok "First"
  /\ _get_evernote_title id_env "evernote:///view/abc/" = Ok "Second".
Proof. repeat split; reflexivity. Qed.

(* ===================================================================== *)
(** ** The search for the page *)
(* ===================================================================== *)

Section Search.

Context (title : string).

Lemma first_titled_skip (pre rest : list page) :
  Forall (other_title title) pre ->
  first_titled title (pre ++ rest) = first_titled title rest.
Proof.
  induction 1 as [|r pre (t & Ht & Hne) _ IH]; [done|]. simpl.
  rewrite Ht; simpl. by apply String.eqb_neq in Hne as ->.
Qed.

Lemma first_titled_found (pre post : list page) (r : page) :
  Forall (other_title title) pre ->
  plain_text r = Ok title ->
  first_titled title (pre ++ r :: post) = Ok (Some (url r)).
Proof.
  intros Hpre Hr. rewrite (first_titled_skip _ _ Hpre). simpl.
  rewrite Hr; simpl. by rewrite String.eqb_refl.
Qed.

Lemma first_titled_none (results : list page) :
  Forall (other_title title) results -> first_titled title results = Ok None.
Proof.
  intros Hall. rewrite <- (app_nil_r results). by rewrite (first_titled_skip _ _ Hall).
Qed.

Lemma first_titled_some (results : list page) (u : string) :
  first_titled title results = Ok (Some u) ->
  exists r, r ∈ results /\ plain_text r = Ok title /\ url r = u.
Proof.
  induction results as [|r results IH]; simpl; [discriminate|].
  destruct (plain_text r) as [t|e] eqn:Ht; simpl; [|discriminate].
  destruct (String.eqb_spec t title) as [->|Hne].
  - intros [= <-]. exists r. split; [left|done].
  - intros (r' & Hin & Hr')%IH. exists r'. split; [by right|done].
Qed.

End Search.

(** C4, as the code has it. The title is unescaped first, the search is
    asked for it between double quotes, and the pages are read in order:
    the URL returned is that of the first page whose title equals the
    unescaped title, when the pages before it have other titles; when
    every page has another title the result is [None]; and a URL that is
    returned always belongs to a page with the unescaped title. *)
Theorem notion_url_from_title (E : Env) (title : string) (results : list page) :
  notion_search E (Str.dquote ++ unescape E title ++ Str.dquote) = Ok results ->
  (forall pre r post,
      results = (pre ++ r :: post)%list ->
      Forall (other_title (unescape E title)) pre ->
      plain_text r = Ok (unescape E title) ->
      _get_notion_url_from_title E title = Ok (Some (url r)))
  /\ (Forall (other_title (unescape E title)) results ->
      _get_notion_url_from_title E title = Ok None)
  /\ (forall u,
      _get_notion_url_from_title E title = Ok (Some u) ->
      exists r, r ∈ results /\ plain_text r = Ok (unescape E title) /\ url r = u).
Proof.
  intros Hsearch. unfold _get_notion_url_from_title. rewrite Hsearch; simpl.
  split; [|split].
  - intros pre r post -> Hpre Hr. by apply first_titled_found.
  - apply first_titled_none.
  - apply first_titled_some.
Qed.

Lemma notion_url_from_title_witness :
  _get_notion_url_from_title demo_env "Groceries" = Ok None.
Proof.
  destruct (notion_url_from_title demo_env "Groceries" demo_pages eq_refl)
    as (_ & Hnone & _).
  apply Hnone. constructor; [|constructor].
  exists "Q&A". split; [reflexivity|discriminate].
Defined.

(** C4, as the claim words it, fails: for the title [Q&amp;A] a URL is
    returned, and no page of the results has that title; the page found
    has the unescaped title [Q&A]. *)
Lemma url_for_unescaped_title :
  _get_notion_url_from_title demo_env "Q&amp;A"
    = Ok (Some "https://www.notion.so/qa-0123")
  /\ notion_search demo_env (Str.dquote ++ unescape demo_env "Q&amp;A" ++ Str.dquote)
     = Ok demo_pages
  /\ Forall (fun r => plain_text r <> Ok "Q&amp;A") demo_pages.
Proof.
  repeat split. constructor; [discriminate|constructor].
Qed.

(* ===================================================================== *)
(** ** The style of a span *)
(* ===================================================================== *)

Lemma append_cons (c : ascii) (s t : string) :
  String c s ++ t = String c (s ++ t).
Proof. reflexivity. Qed.

Lemma append_empty (t : string) : "" ++ t = t.
Proof. reflexivity. Qed.

Lemma strip_prefix_app (p s : string) :
  Str.strip_prefix p (p ++ s) = Some s.
Proof.
  induction p as [|a p IH]; [done|].
  rewrite append_cons; simpl. by rewrite Ascii.eqb_refl.
Qed.

Lemma strip_prefix_Some (p s rest : string) :
  Str.strip_prefix p s = Some rest -> s = p ++ rest.
Proof.
  revert s. induction p as [|a p IH]; intros s; simpl.
  - by intros [= ->].
  - destruct s as [|b s]; [discriminate|].
    destruct (Ascii.eqb_spec a b) as [->|]; [|discriminate].
    intros ->%IH. by rewrite append_cons.
Qed.

Lemma starts_with_app (p s : string) :
  Str.starts_with p (p ++ s) = true.
Proof.
  induction p as [|a p IH]; [done|].
  rewrite append_cons; simpl. by rewrite Ascii.eqb_refl.
Qed.

Lemma starts_with_true (p s : string) :
  Str.starts_with p s = true -> exists rest, s = p ++ rest.
Proof.
  revert s. induction p as [|a p IH]; intros s; simpl.
  - intros _. by exists s.
  - destruct s as [|b s]; [discriminate|].
    destruct (Ascii.eqb_spec a b) as [->|]; [|discriminate].
    intros [rest ->]%IH. by exists rest.
Qed.

(** The white space that [skip_space] drops and what it leaves. *)
Lemma skip_space_split (s : string) :
  exists ws, s = ws ++ Str.skip_space s /\ Str.all_chars Str.is_space ws = true.
Proof.
  induction s as [|c s (ws & Hs & Hws)]; simpl.
  - by exists "".
  - destruct (Str.is_space c) eqn:Hc.
    + exists (String c ws). simpl. rewrite Hc, Hws, append_cons.
      split; [by f_equal|done].
    + by exists "".
Qed.

Lemma skip_space_app (ws s : string) (c : ascii) :
  Str.all_chars Str.is_space ws = true ->
  Str.is_space c = false ->
  Str.skip_space (ws ++ String c s) = String c s.
Proof.
  intros Hws Hc. induction ws as [|w ws IH]; simpl in *.
  - rewrite ?append_empty; simpl. by rewrite Hc.
  - apply andb_true_iff in Hws as [Hw Hws].
    rewrite ?append_cons; simpl. rewrite Hw. by apply IH.
Qed.

Section Declaration.

Context (key value : string) (v : ascii) (value' : string).
Hypothesis value_head : value = String v value'.
Hypothesis value_no_space : Str.is_space v = false.

Lemma declared_here_app (ws after : string) :
  Str.all_chars Str.is_space ws = true ->
  declared_here key value (key ++ ws ++ value ++ after) = true.
Proof.
  intros Hws. unfold declared_here. rewrite strip_prefix_app.
  assert (value ++ after = String v (value' ++ after)) as Hv
    by (by rewrite value_head, append_cons).
  rewrite Hv, (skip_space_app ws _ v Hws value_no_space), <- Hv.
  apply starts_with_app.
Qed.

Lemma declared_here_true (s : string) :
  declared_here key value s = true ->
  exists ws after,
    s = key ++ ws ++ value ++ after /\ Str.all_chars Str.is_space ws = true.
Proof.
  unfold declared_here.
  destruct (Str.strip_prefix key s) as [rest|] eqn:Hkey; [|discriminate].
  intros [after Hafter]%starts_with_true.
  destruct (skip_space_split rest) as (ws & Hrest & Hws).
  exists ws, after. split; [|done].
  rewrite (strip_prefix_Some _ _ _ Hkey). f_equal. by rewrite <- Hafter.
Qed.

(** The matcher and the reading of the pattern agree. *)
Lemma re_match_decl_declares (style : string) :
  re_match_decl key value style = true <-> declares key value style.
Proof.
  split.
  - induction style as [|c style IH]; simpl.
    + rewrite orb_false_r. intros (ws & after & -> & Hws)%declared_here_true.
      by exists "", ws, after.
    + intros [Hhere|Hlater]%orb_true_iff.
      * apply declared_here_true in Hhere as (ws & after & -> & Hws).
        by exists "", ws, after.
      * destruct (Ascii.eqb c Str.newline) eqn:Hc; [discriminate|].
        destruct (IH Hlater) as (before & ws & after & -> & Hbefore & Hws).
        exists (String c before), ws, after. simpl. by rewrite Hc, Hbefore.
  - intros (before & ws & after & -> & Hbefore & Hws).
    induction before as [|c before IH]; simpl in *.
    + destruct (key ++ ws ++ value ++ after) eqn:Heq; simpl;
        rewrite <- ?Heq, declared_here_app; done.
    + apply andb_true_iff in Hbefore as [Hc Hbefore].
      apply negb_true_iff in Hc. rewrite Hc, (IH Hbefore).
      apply orb_true_r.
Qed.

End Declaration.

Lemma bold_declared (style : string) :
  re_match_decl "font-weight:" "bold" style = true
  <-> declares "font-weight:" "bold" style.
Proof. by apply (re_match_decl_declares _ _ "b" "old"). Qed.

Lemma italic_declared (style : string) :
  re_match_decl "font-style:" "italic" style = true
  <-> declares "font-style:" "italic" style.
Proof. by apply (re_match_decl_declares _ _ "i" "talic"). Qed.

(** C5, as the code has it. A span without a style, or with an empty
    one, contributes nothing. With a style, the color property is there
    exactly when [extract_color] finds a color, the bold property exactly
    when the pattern [.*font-weight:\s*bold] matches the style and the
    italic property exactly when [.*font-style:\s*italic] does: the name
    with its colon is on the first line of the style, in lower case, and
    only white space stands between the colon and the value. A style with
    all three yields the three properties in one list. *)
Theorem span_properties (E : Env) (tag : Tag) :
  (truthy (tag_get tag "style") = false -> _resolve_span E tag = [])
  /\ (forall style,
      tag_get tag "style" = Some style ->
      style <> "" ->
      (forall color,
          ["h"; color] ∈ _resolve_span E tag <-> extract_color E style = Some color)
      /\ (["b"] ∈ _resolve_span E tag <-> declares "font-weight:" "bold" style)
      /\ (["i"] ∈ _resolve_span E tag <-> declares "font-style:" "italic" style)
      /\ (forall color,
          extract_color E style = Some color ->
          declares "font-weight:" "bold" style ->
          declares "font-style:" "italic" style ->
          _resolve_span E tag = [["h"; color]; ["b"]; ["i"]])).
Proof.
  unfold _resolve_span. split.
  - by destruct (tag_get tag "style") as [[|c s]|].
  - intros style -> Hne. destruct style as [|c s]; [done|].
    set (style := String c s).
    pose proof (bold_declared style) as Hb.
    pose proof (italic_declared style) as Hi.
    destruct (extract_color E style) as [found|],
      (re_match_decl "font-weight:" "bold" style),
      (re_match_decl "font-style:" "italic" style); simpl;
      repeat split; intros; simplify_eq;
      try done; try set_solver;
      try (by apply Hb); try (by apply Hi);
      repeat match goal with
             | H : declares "font-weight:" _ _ |- _ => apply Hb in H
             | H : declares "font-style:" _ _ |- _ => apply Hi in H
             end; done.
Qed.

Lemma span_properties_witness :
  _resolve_span demo_env (span "color:red; font-weight: bold; font-style:italic")
    = [["h"; "red"]; ["b"]; ["i"]]
  /\ _resolve_span demo_env (mkTag "span" ∅) = [].
Proof.
  split.
  - destruct (span_properties demo_env
                (span "color:red; font-weight: bold; font-style:italic"))
      as [_ Hstyle].
    destruct (Hstyle "color:red; font-weight: bold; font-style:italic" eq_refl
                ltac:(discriminate))
      as (_ & _ & _ & Hall).
    apply Hall.
    + reflexivity.
    + apply bold_declared. reflexivity.
    + apply italic_declared. reflexivity.
  - apply (span_properties demo_env (mkTag "span" ∅)). reflexivity.
Defined.

(** C5, as the claim words it, fails: a style that declares
    [font-weight: bold] after a line break, with a space before the
    colon, or in upper case gives no bold property, and likewise for
    italic; the declarations written the usual way on one line are
    seen. *)
Lemma declared_bold_not_matched :
  (css_declares "font-weight" "bold"
     ("color:red;" ++ String Str.newline "font-weight:bold") = true
   /\ _resolve_span demo_env
        (span ("color:red;" ++ String Str.newline "font-weight:bold"))
      = [["h"; "red"]])
  /\ (css_declares "font-weight" "bold" "font-weight : bold" = true
      /\ _resolve_span demo_env (span "font-weight : bold") = [])
  /\ (css_declares "font-weight" "bold" "FONT-WEIGHT: BOLD" = true
      /\ _resolve_span demo_env (span "FONT-WEIGHT: BOLD") = [])
  /\ (css_declares "font-style" "italic" "font-style : italic" = true
      /\ _resolve_span demo_env (span "font-style : italic") = [])
  /\ (css_declares "font-weight" "bold" "font-weight: bold; font-style: italic" = true
      /\ _resolve_span demo_env (span "font-weight: bold; font-style: italic")
         = [["b"]; ["i"]]).
Proof. repeat split; reflexivity. Qed.

(* ===================================================================== *)
(** ** The result as a set *)
(* ===================================================================== *)

Lemma contribution_bold (E : Env) : contribution E bold = {[ ["b"] ]}.
Proof. unfold contribution; simpl. set_solver. Qed.

Lemma step_unknown (E : Env) (acc : gset prop * list log_record) (tag : Tag) :
  name tag ∉ tag_names -> step E acc tag = acc.
Proof. intros Hname. unfold step. by rewrite tag_map_unknown. Qed.

(** C10. The set returned depends only on which tags occur in the list:
    two lists with the same members give the same set, so the order and
    the repetitions of the tags do not matter; any number of bold tags
    gives the one property [("b",)]; and a tag whose name is none of
    b, i, u, s, span, a changes neither the set nor the log. *)
Theorem resolve_string_properties_is_set (E : Env) :
  (forall tags1 tags2 : list Tag,
      (forall tag, tag ∈ tags1 <-> tag ∈ tags2) ->
      (resolve_string_properties E tags1).1 = (resolve_string_properties E tags2).1)
  /\ (forall tags1 tags2 : list Tag,
      tags1 ≡ₚ tags2 ->
      (resolve_string_properties E tags1).1 = (resolve_string_properties E tags2).1)
  /\ (forall n : nat,
      (resolve_string_properties E (replicate (S n) bold)).1 = {[ ["b"] ]})
  /\ (forall (tags1 tags2 : list Tag) (tag : Tag),
      name tag ∉ tag_names ->
      resolve_string_properties E (tags1 ++ tag :: tags2)
      = resolve_string_properties E (tags1 ++ tags2)).
Proof.
  assert (forall tags1 tags2 : list Tag,
      (forall tag, tag ∈ tags1 <-> tag ∈ tags2) ->
      (resolve_string_properties E tags1).1 = (resolve_string_properties E tags2).1)
    as Hmembers.
  { intros tags1 tags2 Hsame. apply set_eq. intros p.
    rewrite !elem_of_resolve_string_properties.
    split; intros (tag & Htag & Hp); exists tag; split; try done; by apply Hsame. }
  split; [done|]. split; [|split].
  - intros tags1 tags2 Hperm. apply Hmembers. intros tag. by rewrite Hperm.
  - intros n. rewrite resolve_string_properties_union.
    induction n as [|n IH]; simpl in *; rewrite contribution_bold.
    + set_solver.
    + rewrite contribution_bold in IH. rewrite IH. set_solver.
  - intros tags1 tags2 tag Hname. unfold resolve_string_properties.
    rewrite !foldl_app. simpl. by rewrite step_unknown.
Qed.

Lemma resolve_string_properties_is_set_witness :
  (resolve_string_properties demo_env [bold; mkTag "u" ∅; bold]).1
  = (resolve_string_properties demo_env [mkTag "u" ∅; bold]).1
  /\ resolve_string_properties demo_env [bold; mkTag "div" ∅]
     = resolve_string_properties demo_env [bold].
Proof.
  destruct (resolve_string_properties_is_set demo_env)
    as (Hmembers & _ & _ & Hunknown).
  split.
  - apply Hmembers. intros tag. rewrite !elem_of_cons. naive_solver.
  - apply (Hunknown [bold] [] (mkTag "div" ∅)).
    unfold tag_names; simpl. rewrite !elem_of_cons, elem_of_nil.
    intros [?|[?|[?|[?|[?|[?|[]]]]]]]; discriminate.
Defined.

(* ===================================================================== *)
(** ** Tables *)
(* ===================================================================== *)

Section TableRows.

Import Table.

Lemma length_expand_cell (c : td) : length (expand_cell c) = columns c.
Proof.
  unfold expand_cell, columns. simpl. rewrite length_replicate.
  destruct (colspan c); lia.
Qed.

(** A row occupies the columns of its cells. *)
Lemma length_expand_row (r : list td) :
  length (expand_row r) = foldr Nat.add 0 (map columns r).
Proof.
  unfold expand_row. induction r as [|c r IH]; [done|].
  change (concat (map expand_cell (c :: r)))
    with (expand_cell c ++ concat (map expand_cell r))%list.
  rewrite length_app, length_expand_cell, IH. done.
Qed.

Lemma max_columns_bound (rows : list (list td)) (r : list td) :
  r ∈ rows -> length (expand_row r) <= max_columns rows.
Proof.
  unfold max_columns. induction 1 as [r rows|r' r rows _ IH]; simpl; lia.
Qed.

Lemma length_pad_row (width : nat) (r : list string) :
  length r <= width -> length (pad_row width r) = width.
Proof.
  intros Hle. unfold pad_row. rewrite length_app, length_replicate. lia.
Qed.

(** The width of the table is the width of one of its rows. *)
Lemma max_columns_attained (rows : list (list td)) :
  rows <> [] -> exists r, r ∈ rows /\ length (expand_row r) = max_columns rows.
Proof.
  unfold max_columns. induction rows as [|r rows IH]; [done|]. intros _. simpl.
  destruct rows as [|r' rows].
  - exists r. split; [left|simpl; lia].
  - destruct IH as (r0 & Hin & Hlen); [done|].
    destruct (Nat.max_spec (length (expand_row r))
                (foldr Nat.max 0 (map (fun r => length (expand_row r)) (r' :: rows))))
      as [[_ Hmax]|[_ Hmax]]; rewrite Hmax.
    + exists r0. split; [by right|done].
    + exists r. split; [left|done].
Qed.

End TableRows.

(** C9. The table has one produced row per row of the markup; every
    produced row has as many columns as the widest row of the table,
    which is the width of one of its rows; a produced row is the cells of
    its markup row, each expanded, followed by empty-text cells only; and
    a cell with a column span of [n >= 1] expands to its text followed by
    [n - 1] empty-text cells, [n] columns in all. *)
Theorem table_rows_padded (rows : list (list Table.td)) :
  length (Table.iter_rows rows) = length rows
  /\ (forall row, row ∈ Table.iter_rows rows -> length row = Table.max_columns rows)
  /\ (rows <> [] ->
      exists r, r ∈ rows /\ length (Table.expand_row r) = Table.max_columns rows)
  /\ (forall i r,
      rows !! i = Some r ->
      Table.iter_rows rows !! i
      = Some (Table.expand_row r
              ++ replicate (Table.max_columns rows - length (Table.expand_row r)) "")%list)
  /\ (forall c n,
      Table.colspan c = Some n ->
      1 <= n ->
      Table.expand_cell c = Table.content c :: replicate (n - 1) ""
      /\ length (Table.expand_cell c) = n).
Proof.
  split; [|split; [|split; [|split]]].
  - unfold Table.iter_rows. by rewrite length_map.
  - intros row Hrow. unfold Table.iter_rows in Hrow.
    apply list_elem_of_fmap in Hrow as (r & -> & Hr).
    apply length_pad_row. by apply max_columns_bound.
  - apply max_columns_attained.
  - intros i r Hi. unfold Table.iter_rows.
    change (map ?f rows) with (f <$> rows). by rewrite list_lookup_fmap, Hi.
  - intros c n Hspan Hn.
    pose proof (length_expand_cell c) as Hlen. revert Hlen.
    unfold Table.expand_cell, Table.columns. rewrite Hspan.
    replace (Nat.max 1 n) with n by lia. done.
Qed.

Lemma table_rows_padded_witness :
  Table.iter_rows Table.test_table_padded = [["test1"; ""]; ["test2"; "test3"]]
  /\ length ["test1"; ""] = Table.max_columns Table.test_table_padded.
Proof.
  split; [reflexivity|].
  destruct (table_rows_padded Table.test_table_padded) as (_ & Hwidth & _).
  apply Hwidth. left.
Defined.

(* ===================================================================== *)
(** ** Unresolved resources and unparsable notes *)
(* ===================================================================== *)

Section Notes.

Import NoteParser.

Context {N B : Type}.
Context (dispatch_other : N -> list (block B) * list log_record).
Context (resources : gset string).
Context (parse_markup : string -> result (list (node N))).

Abbreviation run := (parse_siblings N B dispatch_other resources).

(** The traversal of a list of siblings is the traversal of its parts. *)
Lemma parse_siblings_app (nodes1 nodes2 : list (node N)) :
  run (nodes1 ++ nodes2)
  = (((run nodes1).1 ++ (run nodes2).1)%list, ((run nodes1).2 ++ (run nodes2).2)%list).
Proof.
  induction nodes1 as [|n nodes1 IH]; simpl.
  - by destruct (run nodes2).
  - rewrite IH; simpl. by rewrite !app_assoc.
Qed.

Lemma parse_siblings_cons (n : node N) (nodes : list (node N)) :
  run (n :: nodes)
  = (((dispatch N B dispatch_other resources n).1 ++ (run nodes).1)%list,
     ((dispatch N B dispatch_other resources n).2 ++ (run nodes).2)%list).
Proof. reflexivity. Qed.

Lemma dispatch_unresolved (mime hash : string) :
  hash ∉ resources ->
  dispatch N B dispatch_other resources (EnMedia mime hash) = ([], [unresolved_warning]).
Proof. intros Hmiss. unfold dispatch. by rewrite decide_False. Qed.

End Notes.

(** C8. An embedded-media node whose hash is not in the resource table
    adds no block and one warning with the words "Failed to resolve
    resource"; the blocks and the log of the siblings before and after it
    are all there, in order. *)
Theorem unresolved_media_omitted {N B : Type}
    (dispatch_other : N -> list (NoteParser.block B) * list log_record)
    (resources : gset string)
    (before after : list (NoteParser.node N)) (mime hash : string) :
  hash ∉ resources ->
  NoteParser.parse_siblings N B dispatch_other resources
    (before ++ NoteParser.EnMedia mime hash :: after)
  = (((NoteParser.parse_siblings N B dispatch_other resources before).1
      ++ (NoteParser.parse_siblings N B dispatch_other resources after).1)%list,
     ((NoteParser.parse_siblings N B dispatch_other resources before).2
      ++ NoteParser.unresolved_warning
      :: (NoteParser.parse_siblings N B dispatch_other resources after).2)%list)
  /\ levelname NoteParser.unresolved_warning = WARNING
  /\ Str.contains "Failed to resolve resource" (message NoteParser.unresolved_warning)
     = true.
Proof.
  intros Hmiss. split; [|done].
  rewrite parse_siblings_app, parse_siblings_cons.
  by rewrite (dispatch_unresolved dispatch_other resources mime hash Hmiss).
Qed.

Lemma unresolved_media_omitted_witness :
  NoteParser.parse_siblings string string NoteParser.text_dispatch ∅
    [NoteParser.OtherNode "test1"; NoteParser.EnMedia "fake/mime" "fake_hash";
     NoteParser.OtherNode "test2"]
  = ([NoteParser.OtherBlock "test1"; NoteParser.OtherBlock "test2"],
     [NoteParser.unresolved_warning]).
Proof.
  apply (unresolved_media_omitted NoteParser.text_dispatch ∅
           [NoteParser.OtherNode "test1"] [NoteParser.OtherNode "test2"]
           "fake/mime" "fake_hash").
  set_solver.
Defined.

(** C7. When the markup parser raises on the content of a note,
    [parse_note] returns the empty forest and logs one error with the
    words "Failed to extract"; its result is a forest and a log, never
    an exception. *)
Theorem bad_note_empty_forest {N B : Type}
    (dispatch_other : N -> list (NoteParser.block B) * list log_record)
    (resources : gset string)
    (parse_markup : string -> result (list (NoteParser.node N)))
    (content : string) (e : exn) :
  parse_markup content = Raise e ->
  NoteParser.parse_note N B dispatch_other resources parse_markup content
  = ([], [NoteParser.extract_error])
  /\ levelname NoteParser.extract_error = ERROR
  /\ Str.contains "Failed to extract" (message NoteParser.extract_error) = true.
Proof.
  intros Hraise. unfold NoteParser.parse_note. by rewrite Hraise.
Qed.

Lemma bad_note_empty_forest_witness :
  NoteParser.parse_note string string NoteParser.text_dispatch ∅
    NoteParser.test_markup "bad"
  = ([], [NoteParser.extract_error]).
Proof.
  apply (bad_note_empty_forest NoteParser.text_dispatch ∅ NoteParser.test_markup
           "bad" (Exn "ParseError" "not a note")).
  reflexivity.
Defined.

(* ===================================================================== *)
(** ** Strings: substrings, letter case and segments *)
(* ===================================================================== *)

Lemma append_assoc' (a b c : string) : (a ++ b) ++ c = a ++ b ++ c.
Proof. induction a as [|x a IH]; [done|]. rewrite !append_cons. by f_equal. Qed.

Lemma append_empty_r (s : string) : s ++ "" = s.
Proof. induction s as [|x s IH]; [done|]. rewrite append_cons. by f_equal. Qed.

Lemma contains_empty (s : string) : Str.contains "" s = true.
Proof. by destruct s. Qed.

Lemma contains_app (needle pre post : string) :
  Str.contains needle (pre ++ needle ++ post) = true.
Proof.
  induction pre as [|c pre IH].
  - rewrite append_empty.
    destruct (needle ++ post) eqn:Heq; simpl; rewrite <- ?Heq, starts_with_app; done.
  - rewrite append_cons. simpl. rewrite IH. apply orb_true_r.
Qed.

Lemma contains_true (needle hay : string) :
  Str.contains needle hay = true -> exists pre post, hay = pre ++ needle ++ post.
Proof.
  induction hay as [|c hay IH]; simpl.
  - rewrite orb_false_r. intros [rest ->]%starts_with_true. by exists "", rest.
  - intros [Hhere|Hlater]%orb_true_iff.
    + apply starts_with_true in Hhere as [rest ->]. by exists "", rest.
    + destruct (IH Hlater) as (pre & post & ->). by exists (String c pre), post.
Qed.

Lemma lower_app (a b : string) : Str.lower (a ++ b) = Str.lower a ++ Str.lower b.
Proof. induction a as [|x a IH]; [done|]. rewrite append_cons. simpl. rewrite append_cons. by f_equal. Qed.

Lemma lower_char_idemp (c : ascii) : Str.lower_char (Str.lower_char c) = Str.lower_char c.
Proof. destruct c as [[] [] [] [] [] [] [] []]; reflexivity. Qed.

Lemma lower_idemp (s : string) : Str.lower (Str.lower s) = Str.lower s.
Proof. induction s as [|c s IH]; simpl; [done|]. by rewrite lower_char_idemp, IH. Qed.

Lemma split_not_nil (sep : ascii) (s : string) : Str.split sep s <> [].
Proof.
  destruct s as [|c s]; simpl; [done|].
  destruct (Ascii.eqb c sep); [done|]. by destruct (Str.split sep s).
Qed.

Lemma split_cons_sep (sep : ascii) (s : string) :
  Str.split sep (String sep s) = "" :: Str.split sep s.
Proof. simpl. by rewrite Ascii.eqb_refl. Qed.

Lemma split_cons_neq (sep c : ascii) (s : string) :
  Ascii.eqb c sep = false ->
  Str.split sep (String c s)
  = match Str.split sep s with
    | [] => [String c ""]
    | w :: ws => String c w :: ws
    end.
Proof. intros Hc. simpl. by rewrite Hc. Qed.

Lemma split_cons_other (sep c : ascii) (s : string) :
  c <> sep ->
  exists w ws, Str.split sep s = w :: ws /\ Str.split sep (String c s) = String c w :: ws.
Proof.
  intros Hc. simpl. apply Ascii.eqb_neq in Hc as ->.
  destruct (Str.split sep s) as [|w ws] eqn:Hs; [by apply split_not_nil in Hs|].
  by exists w, ws.
Qed.

Lemma join_split (sep : ascii) (s : string) : join sep (Str.split sep s) = s.
Proof.
  induction s as [|c s IH]; [done|].
  destruct (Ascii.eqb_spec c sep) as [->|Hc].
  - rewrite split_cons_sep.
    destruct (Str.split sep s) as [|w ws] eqn:Hs; [by apply split_not_nil in Hs|].
    simpl in *. rewrite append_empty. by rewrite IH.
  - destruct (split_cons_other sep c s Hc) as (w & ws & Hs & ->).
    rewrite Hs in IH. destruct ws as [|w' ws]; simpl in *.
    + by rewrite IH.
    + rewrite append_cons. by rewrite IH.
Qed.

Lemma has_char_cons (sep c : ascii) (s : string) :
  has_char sep (String c s) = Ascii.eqb sep c || has_char sep s.
Proof.
  unfold has_char. simpl. destruct (Ascii.eqb sep c); [done|]. done.
Qed.

Lemma split_segments (sep : ascii) (s : string) :
  Forall (fun w => has_char sep w = false) (Str.split sep s).
Proof.
  induction s as [|c s IH]; [by repeat constructor|].
  destruct (Ascii.eqb_spec c sep) as [->|Hc].
  - rewrite split_cons_sep. by constructor.
  - destruct (split_cons_other sep c s Hc) as (w & ws & Hs & ->).
    rewrite Hs in IH. inversion IH as [|? ? Hw Hws]; subst. constructor; [|done].
    rewrite has_char_cons, Hw. apply not_eq_sym in Hc. by apply Ascii.eqb_neq in Hc as ->.
Qed.

Lemma split_one (sep : ascii) (s : string) :
  has_char sep s = false -> Str.split sep s = [s].
Proof.
  induction s as [|c s IH]; [done|]. rewrite has_char_cons.
  intros [Hc Hs]%orb_false_iff. simpl. rewrite Ascii.eqb_sym, Hc, (IH Hs). done.
Qed.

Lemma split_two (sep : ascii) (s : string) :
  has_char sep s = true -> 2 <= length (Str.split sep s).
Proof.
  induction s as [|c s IH]; [done|]. rewrite has_char_cons.
  destruct (Ascii.eqb_spec sep c) as [<-|Hc]; simpl.
  - intros _. rewrite Ascii.eqb_refl. simpl.
    pose proof (split_not_nil sep s). destruct (Str.split sep s); [done|simpl; lia].
  - intros Hs. apply not_eq_sym in Hc.
    destruct (split_cons_other sep c s Hc) as (w & ws & Hsp & Hsp').
    simpl in Hsp'. rewrite Hsp'. specialize (IH Hs). by rewrite Hsp in IH.
Qed.

Lemma split_join (sep : ascii) (l : list string) :
  l <> [] -> Forall (fun w => has_char sep w = false) l ->
  Str.split sep (join sep l) = l.
Proof.
  intros Hne Hall. induction Hall as [|w l Hw Hall IH]; [done|].
  destruct l as [|w' l].
  - simpl. by apply split_one.
  - change (join sep (w :: w' :: l)) with (w ++ String sep (join sep (w' :: l))).
    specialize (IH ltac:(done)). clear Hne.
    induction w as [|c w IHw].
    + rewrite append_empty, split_cons_sep. by rewrite IH.
    + rewrite has_char_cons in Hw. apply orb_false_iff in Hw as [Hc Hw].
      rewrite append_cons, split_cons_neq by (by rewrite Ascii.eqb_sym).
      by rewrite (IHw Hw).
Qed.

(* ===================================================================== *)
(** ** What the returned set holds *)
(* ===================================================================== *)

Section Shape.

Context (E : Env).

Lemma tag_map_cases (tag : Tag) :
  (name tag = "b" /\ tag_map E tag = Some (RTuple ["b"], []))
  \/ (name tag = "i" /\ tag_map E tag = Some (RTuple ["i"], []))
  \/ (name tag = "u" /\ tag_map E tag = Some (RTuple ["_"], []))
  \/ (name tag = "s" /\ tag_map E tag = Some (RTuple ["s"], []))
  \/ (name tag = "span" /\ tag_map E tag = Some (RList (_resolve_span E tag), []))
  \/ (name tag = "a" /\ tag_map E tag = Some (_resolve_link E tag))
  \/ ((name tag ∉ tag_names) /\ tag_map E tag = None).
Proof.
  unfold tag_map.
  destruct (String.eqb_spec (name tag) "b"); [by left|right].
  destruct (String.eqb_spec (name tag) "i"); [by left|right].
  destruct (String.eqb_spec (name tag) "u"); [by left|right].
  destruct (String.eqb_spec (name tag) "s"); [by left|right].
  destruct (String.eqb_spec (name tag) "span"); [by left|right].
  destruct (String.eqb_spec (name tag) "a"); [by left|right].
  split; [|done]. unfold tag_names. set_solver.
Qed.

Lemma resolve_link_cases (tag : Tag) :
  (truthy (tag_get tag "href") = false /\ _resolve_link E tag = (RNone, []))
  \/ exists href,
      tag_get tag "href" = Some href /\ href <> "" /\
      ((Str.contains "evernote://" href = false
        /\ _resolve_link E tag = (RTuple ["a"; href], []))
       \/ (Str.contains "evernote://" href = true /\
           ((_get_notion_url E href = Ok None
             /\ _resolve_link E tag
                = (RTuple ["a"; href],
                   [LogRecord ERROR ("Notion URL retrieval failed: " ++ href)]))
            \/ (exists notion_url,
                 _get_notion_url E href = Ok (Some notion_url)
                 /\ _resolve_link E tag = (RTuple ["a"; notion_url], []))
            \/ (exists e,
                 _get_notion_url E href = Raise e
                 /\ _resolve_link E tag
                    = (RNone,
                       [LogRecord ERROR ("Notion URL retrieval failed: " ++ href
                                         ++ " with exception " ++ str_exn e)]))))).
Proof.
  unfold _resolve_link.
  destruct (tag_get tag "href") as [[|c s]|] eqn:Hget; [by left| |by left].
  right. exists (String c s). split; [done|]. split; [done|].
  destruct (Str.contains "evernote://" (String c s)) eqn:Hin; [|by left].
  right. split; [done|].
  destruct (_get_notion_url E (String c s)) as [[u|]|e]; eauto 10.
Qed.

Lemma elem_of_contribution (tag : Tag) (p : prop) :
  p ∈ contribution E tag <->
  (name tag = "b" /\ p = ["b"])
  \/ (name tag = "i" /\ p = ["i"])
  \/ (name tag = "u" /\ p = ["_"])
  \/ (name tag = "s" /\ p = ["s"])
  \/ (name tag = "span" /\ p ∈ _resolve_span E tag)
  \/ (name tag = "a" /\ exists u, (_resolve_link E tag).1 = RTuple ["a"; u] /\ p = ["a"; u]).
Proof.
  unfold contribution.
  destruct (tag_map_cases tag)
    as [[Hn ->]|[[Hn ->]|[[Hn ->]|[[Hn ->]|[[Hn ->]|[[Hn ->]|[Hn ->]]]]]]]; simpl.
  1-4: rewrite Hn; set_solver.
  - rewrite Hn. rewrite elem_of_union, elem_of_list_to_set. set_solver.
  - rewrite Hn.
    destruct (resolve_link_cases tag)
      as [[_ ->]|(href & _ & _ & [[_ ->]|[_ [[_ ->]|[(u & _ & ->)|(e & _ & ->)]]]])];
      simpl; set_solver.
  - unfold tag_names in Hn. set_solver.
Qed.

End Shape.

Section SpanShape.

Context (E : Env).

Lemma elem_of_resolve_span (tag : Tag) (p : prop) :
  p ∈ _resolve_span E tag <->
  exists style,
    tag_get tag "style" = Some style /\ style <> "" /\
    ((exists color, extract_color E style = Some color /\ p = ["h"; color])
     \/ (re_match_decl "font-weight:" "bold" style = true /\ p = ["b"])
     \/ (re_match_decl "font-style:" "italic" style = true /\ p = ["i"])).
Proof.
  unfold _resolve_span.
  destruct (tag_get tag "style") as [[|c s]|].
  - rewrite elem_of_nil. split; [done|]. by intros (style & [= <-] & Hne & _).
  - set (style := String c s). rewrite !elem_of_app. split.
    + intros [Hh|[Hb|Hi]]; exists style; (split; [done|]); (split; [done|]).
      * left. destruct (extract_color E style) as [color|]; [|by apply elem_of_nil in Hh].
        exists color. split; [done|]. by apply list_elem_of_singleton in Hh.
      * right; left. destruct (re_match_decl "font-weight:" "bold" style);
          [|by apply elem_of_nil in Hb].
        split; [done|]. by apply list_elem_of_singleton in Hb.
      * right; right. destruct (re_match_decl "font-style:" "italic" style);
          [|by apply elem_of_nil in Hi].
        split; [done|]. by apply list_elem_of_singleton in Hi.
    + intros (style' & [= <-] & _ & [(color & -> & ->)|[[-> ->]|[-> ->]]]).
      * left. by apply list_elem_of_singleton.
      * right; left. by apply list_elem_of_singleton.
      * right; right. by apply list_elem_of_singleton.
  - rewrite elem_of_nil. split; [done|]. by intros (style & [=] & _).
Qed.

End SpanShape.

(** X2. Every property of the returned set is [("b",)], [("i",)],
    [("_",)], [("s",)], a color property [("h", color)] or a link property
    [("a", url)]: no other tuple is ever produced. *)
Theorem property_shapes (E : Env) (tags : list Tag) (p : prop) :
  p ∈ (resolve_string_properties E tags).1 ->
  p = ["b"] \/ p = ["i"] \/ p = ["_"] \/ p = ["s"]
  \/ (exists color, p = ["h"; color]) \/ (exists u, p = ["a"; u]).
Proof.
  intros (tag & _ & Hp)%elem_of_resolve_string_properties.
  apply elem_of_contribution in Hp
    as [[_ ->]|[[_ ->]|[[_ ->]|[[_ ->]|[[_ Hspan]|[_ (u & _ & ->)]]]]]]; eauto 10.
  apply elem_of_resolve_span in Hspan
    as (style & _ & _ & [(color & _ & ->)|[[_ ->]|[_ ->]]]); eauto 10.
Qed.

Lemma property_shapes_witness :
  ["_"] = ["b"] \/ ["_"] = ["i"] \/ ["_"] = ["_"] \/ ["_"] = ["s"]
  \/ (exists color, ["_"] = ["h"; color]) \/ (exists u, ["_"] = ["a"; u]).
Proof.
  apply (property_shapes demo_env [mkTag "u" ∅]).
  vm_compute. set_solver.
Defined.

(** X3. The underline property is the tuple [("_",)]: it is in the set
    exactly when one of the tags is a [u] tag, and the tuple [("u",)] is
    never in the set. *)
Theorem underline_property (E : Env) (tags : list Tag) :
  (["_"] ∈ (resolve_string_properties E tags).1 <-> exists tag, tag ∈ tags /\ name tag = "u")
  /\ ["u"] ∉ (resolve_string_properties E tags).1.
Proof.
  split.
  - rewrite elem_of_resolve_string_properties. split.
    + intros (tag & Htag & Hp). exists tag. split; [done|].
      apply elem_of_contribution in Hp
        as [[_ ?]|[[_ ?]|[[? _]|[[_ ?]|[[_ Hspan]|[_ (u & _ & ?)]]]]]]; try done.
      by apply elem_of_resolve_span in Hspan
        as (style & _ & _ & [(color & _ & ?)|[[_ ?]|[_ ?]]]).
    + intros (tag & Htag & Hname). exists tag. split; [done|].
      apply elem_of_contribution. eauto 10.
  - intros (tag & _ & Hp)%elem_of_resolve_string_properties.
    apply elem_of_contribution in Hp
      as [[_ ?]|[[_ ?]|[[_ ?]|[[_ ?]|[[_ Hspan]|[_ (u & _ & ?)]]]]]]; try done.
    by apply elem_of_resolve_span in Hspan
      as (style & _ & _ & [(color & _ & ?)|[[_ ?]|[_ ?]]]).
Qed.

(** X4. The bold property is in the set exactly when one of the tags is
    a [b] tag or a span whose style declares [font-weight:] bold, and the
    italic property exactly when one is an [i] tag or a span whose style
    declares [font-style:] italic. *)
Theorem bold_italic_property (E : Env) (tags : list Tag) :
  (["b"] ∈ (resolve_string_properties E tags).1 <->
   exists tag, tag ∈ tags /\
     (name tag = "b"
      \/ (name tag = "span" /\
          exists style, tag_get tag "style" = Some style
                        /\ declares "font-weight:" "bold" style)))
  /\ (["i"] ∈ (resolve_string_properties E tags).1 <->
      exists tag, tag ∈ tags /\
        (name tag = "i"
         \/ (name tag = "span" /\
             exists style, tag_get tag "style" = Some style
                           /\ declares "font-style:" "italic" style))).
Proof.
  assert (forall key value, value <> "" -> ~ declares key value "") as Hempty.
  { intros key value Hvalue (before & ws & after & Heq & _).
    destruct before, key, ws, value; done. }
  split; rewrite elem_of_resolve_string_properties; split.
  - intros (tag & Htag & Hp). exists tag. split; [done|].
    apply elem_of_contribution in Hp
      as [[? _]|[[_ ?]|[[_ ?]|[[_ ?]|[[Hname Hspan]|[_ (u & _ & ?)]]]]]]; try done;
      [by left|right].
    split; [done|].
    apply elem_of_resolve_span in Hspan
      as (style & Hstyle & _ & [(color & _ & ?)|[[Hb _]|[_ ?]]]); try done.
    exists style. split; [done|]. by apply bold_declared.
  - intros (tag & Htag & [Hname|(Hname & style & Hstyle & Hdecl)]);
      exists tag; (split; [done|]); apply elem_of_contribution; [by left|].
    do 4 right. left. split; [done|]. apply elem_of_resolve_span.
    exists style. split; [done|]. split.
    { intros ->. by apply (Hempty "font-weight:" "bold"). }
    right; left. split; [|done]. by apply bold_declared.
  - intros (tag & Htag & Hp). exists tag. split; [done|].
    apply elem_of_contribution in Hp
      as [[_ ?]|[[? _]|[[_ ?]|[[_ ?]|[[Hname Hspan]|[_ (u & _ & ?)]]]]]]; try done;
      [by left|right].
    split; [done|].
    apply elem_of_resolve_span in Hspan
      as (style & Hstyle & _ & [(color & _ & ?)|[[_ ?]|[Hi _]]]); try done.
    exists style. split; [done|]. by apply italic_declared.
  - intros (tag & Htag & [Hname|(Hname & style & Hstyle & Hdecl)]);
      exists tag; (split; [done|]); apply elem_of_contribution; [by right; left|].
    do 4 right. left. split; [done|]. apply elem_of_resolve_span.
    exists style. split; [done|]. split.
    { intros ->. by apply (Hempty "font-style:" "italic"). }
    right; right. split; [|done]. by apply italic_declared.
Qed.

(** X5. The color property [("h", color)] is in the set exactly when
    one of the tags is a span with a style that is not empty and in which
    [extract_color] finds that color. *)
Theorem color_property (E : Env) (tags : list Tag) (color : string) :
  ["h"; color] ∈ (resolve_string_properties E tags).1 <->
  exists tag style,
    tag ∈ tags /\ name tag = "span" /\ tag_get tag "style" = Some style
    /\ style <> "" /\ extract_color E style = Some color.
Proof.
  rewrite elem_of_resolve_string_properties. split.
  - intros (tag & Htag & Hp).
    apply elem_of_contribution in Hp
      as [[_ ?]|[[_ ?]|[[_ ?]|[[_ ?]|[[Hname Hspan]|[_ (u & _ & ?)]]]]]]; try done.
    apply elem_of_resolve_span in Hspan
      as (style & Hstyle & Hne & [(color' & Hcolor & [= ->])|[[_ ?]|[_ ?]]]); try done.
    by exists tag, style.
  - intros (tag & style & Htag & Hname & Hstyle & Hne & Hcolor).
    exists tag. split; [done|]. apply elem_of_contribution.
    do 4 right. left. split; [done|]. apply elem_of_resolve_span.
    exists style. split; [done|]. split; [done|]. left. by exists color.
Qed.

(** X6. A link property of the set comes from an anchor with an href
    that is not empty: its URL is that href (for an external link, or for
    an internal one whose page was not found), or it is the URL of a page
    of the search results whose title is the unescaped title that the
    links file gives for the href. *)
Theorem link_property_origin (E : Env) (tags : list Tag) (u : string) :
  ["a"; u] ∈ (resolve_string_properties E tags).1 ->
  exists tag href,
    tag ∈ tags /\ name tag = "a" /\ tag_get tag "href" = Some href /\ href <> ""
    /\ ((u = href /\ (Str.contains "evernote://" href = false
                      \/ _get_notion_url E href = Ok None))
        \/ (Str.contains "evernote://" href = true
            /\ exists title results r,
                _get_evernote_title E href = Ok title
                /\ notion_search E (Str.dquote ++ unescape E title ++ Str.dquote) = Ok results
                /\ r ∈ results
                /\ plain_text r = Ok (unescape E title)
                /\ url r = u)).
Proof.
  intros (tag & Htag & Hp)%elem_of_resolve_string_properties.
  apply elem_of_contribution in Hp
    as [[_ ?]|[[_ ?]|[[_ ?]|[[_ ?]|[[_ Hspan]|[Hname (u' & Hlink & [= <-])]]]]]]; try done.
  { by apply elem_of_resolve_span in Hspan
      as (style & _ & _ & [(color & _ & ?)|[[_ ?]|[_ ?]]]). }
  destruct (resolve_link_cases E tag)
    as [[_ Heq]|(href & Hget & Hne & [[Hext Heq]|[Hint [[Hnone Heq]|[(v & Hsome & Heq)|(e & _ & Heq)]]]])];
    rewrite Heq in Hlink; simpl in Hlink; try discriminate;
    injection Hlink as Hu; exists tag, href; repeat (split; [done|]).
  - left. split; [done|]. by left.
  - left. split; [done|]. by right.
  - right. split; [done|]. subst v.
    unfold _get_notion_url in Hsome.
    destruct (_get_evernote_title E href) as [title|e] eqn:Htitle; [|done]. simpl in Hsome.
    unfold _get_notion_url_from_title in Hsome.
    destruct (notion_search E _) as [results|e] eqn:Hsearch; [|done]. simpl in Hsome.
    apply first_titled_some in Hsome as (r & Hr & Hplain & Hurl).
    by exists title, results, r.
Qed.

Lemma link_property_origin_witness :
  exists tag href,
    tag ∈ [anchor listed_href] /\ name tag = "a"
    /\ tag_get tag "href" = Some href /\ href <> ""
    /\ ((listed_href = href
         /\ (Str.contains "evernote://" href = false
             \/ _get_notion_url demo_env href = Ok None))
        \/ (Str.contains "evernote://" href = true
            /\ exists title results r,
                _get_evernote_title demo_env href = Ok title
                /\ notion_search demo_env
                     (Str.dquote ++ unescape demo_env title ++ Str.dquote) = Ok results
                /\ r ∈ results
                /\ plain_text r = Ok (unescape demo_env title)
                /\ url r = listed_href)).
Proof.
  apply (link_property_origin demo_env [anchor listed_href] listed_href).
  apply elem_of_resolve_string_properties. exists (anchor listed_href).
  split; [left|]. apply elem_of_contribution. do 5 right.
  split; [reflexivity|]. exists listed_href. split; reflexivity.
Defined.

(* ===================================================================== *)
(** ** The log, and lists of tags taken together *)
(* ===================================================================== *)

Lemma elem_of_concat {A : Type} (x : A) (ls : list (list A)) :
  x ∈ concat ls <-> exists l, l ∈ ls /\ x ∈ l.
Proof.
  induction ls as [|l ls IH]; simpl.
  - rewrite elem_of_nil. split; [done|]. intros (l & Hl & _). by apply elem_of_nil in Hl.
  - rewrite elem_of_app, IH. split.
    + intros [Hx|(l' & Hl' & Hx)]; [exists l|exists l']; (split; [|done]); [left|by right].
    + intros (l' & [->|Hl']%elem_of_cons & Hx); [by left|right; by exists l'].
Qed.

Section Log.

Context (E : Env).

Lemma step_log (acc : gset prop * list log_record) (tag : Tag) :
  (step E acc tag).2
  = (acc.2 ++ if decide (name tag = "a") then (_resolve_link E tag).2 else [])%list.
Proof.
  unfold step.
  destruct (tag_map_cases E tag)
    as [[Hn ->]|[[Hn ->]|[[Hn ->]|[[Hn ->]|[[Hn ->]|[[Hn ->]|[Hn ->]]]]]]]; simpl;
    try (rewrite decide_False by (by rewrite Hn); by rewrite app_nil_r).
  - rewrite decide_True by done. by destruct (_resolve_link E tag).
  - rewrite decide_False; [by rewrite app_nil_r|].
    intros Ha. apply Hn. rewrite Ha. unfold tag_names. set_solver.
Qed.

Lemma foldl_step_log (tags : list Tag) (acc : gset prop * list log_record) :
  (foldl (step E) acc tags).2
  = (acc.2 ++ concat (map (fun tag => (_resolve_link E tag).2)
                        (filter (fun tag => name tag = "a") tags)))%list.
Proof.
  revert acc. induction tags as [|tag tags IH]; intros acc; simpl.
  - by rewrite app_nil_r.
  - rewrite IH, step_log. destruct (decide (name tag = "a")) as [Ha|Ha].
    + rewrite filter_cons_True by done. simpl. by rewrite app_assoc.
    + rewrite filter_cons_False by done. by rewrite app_nil_r.
Qed.

Lemma foldl_step_acc (tags : list Tag) (acc : gset prop * list log_record) :
  foldl (step E) acc tags
  = (acc.1 ∪ (resolve_string_properties E tags).1,
     (acc.2 ++ (resolve_string_properties E tags).2)%list).
Proof.
  unfold resolve_string_properties.
  destruct (foldl (step E) acc tags) as [s l] eqn:Hfold. f_equal.
  - change s with (s, l).1. rewrite <- Hfold, !foldl_step_properties. set_solver.
  - change l with (s, l).2. rewrite <- Hfold, !foldl_step_log. done.
Qed.

End Log.

(** X1. The tags of two lists taken together give the union of the two
    sets and the two logs one after the other: the loop keeps no state
    between tags other than the set and the log. *)
Theorem resolve_string_properties_app (E : Env) (tags1 tags2 : list Tag) :
  resolve_string_properties E (tags1 ++ tags2)
  = ((resolve_string_properties E tags1).1 ∪ (resolve_string_properties E tags2).1,
     ((resolve_string_properties E tags1).2 ++ (resolve_string_properties E tags2).2)%list).
Proof.
  unfold resolve_string_properties at 1. rewrite foldl_app.
  fold (resolve_string_properties E tags1). apply foldl_step_acc.
Qed.

(** X7. Only anchors log: the log is what [_resolve_link] logs for each
    [a] tag, in the order of the tags, and it has at most one record for
    each of them. *)
Theorem log_of_anchors (E : Env) (tags : list Tag) :
  (resolve_string_properties E tags).2
  = concat (map (fun tag => (_resolve_link E tag).2)
              (filter (fun tag => name tag = "a") tags))
  /\ length (resolve_string_properties E tags).2
     <= length (filter (fun tag => name tag = "a") tags).
Proof.
  assert ((resolve_string_properties E tags).2
          = concat (map (fun tag => (_resolve_link E tag).2)
                      (filter (fun tag => name tag = "a") tags))) as Hlog.
  { unfold resolve_string_properties. by rewrite foldl_step_log. }
  split; [done|]. rewrite Hlog. clear Hlog.
  induction (filter (fun tag => name tag = "a") tags) as [|tag anchors IH]; simpl; [done|].
  rewrite length_app.
  assert (length (_resolve_link E tag).2 <= 1); [|lia].
  destruct (resolve_link_cases E tag)
    as [[_ ->]|(href & _ & _ & [[_ ->]|[_ [[_ ->]|[(u & _ & ->)|(e & _ & ->)]]]])];
    simpl; lia.
Qed.

(** X8. Every record of the log is an error, comes from an anchor whose
    href contains [evernote://] and for which no Notion URL was found,
    and its message starts with "Notion URL retrieval failed: " and that
    href. *)
Theorem log_records (E : Env) (tags : list Tag) (r : log_record) :
  r ∈ (resolve_string_properties E tags).2 ->
  levelname r = ERROR
  /\ exists tag href,
      tag ∈ tags /\ name tag = "a" /\ tag_get tag "href" = Some href
      /\ Str.contains "evernote://" href = true
      /\ (forall notion_url, _get_notion_url E href <> Ok (Some notion_url))
      /\ Str.starts_with ("Notion URL retrieval failed: " ++ href) (message r) = true.
Proof.
  unfold resolve_string_properties. rewrite foldl_step_log. cbn [snd app].
  intros (l & Hl & Hr)%elem_of_concat.
  apply list_elem_of_fmap in Hl as (tag & -> & Htag).
  apply list_elem_of_filter in Htag as [Hname Htag].
  destruct (resolve_link_cases E tag)
    as [[_ Heq]|(href & Hget & _ & [[_ Heq]|[Hint [[Hnone Heq]|[(u & _ & Heq)|(e & Hraise & Heq)]]]])];
    rewrite Heq in Hr; simpl in Hr; try (by apply elem_of_nil in Hr);
    apply list_elem_of_singleton in Hr as ->; (split; [done|]);
    exists tag, href; repeat (split; [done|]);
    (split; [intros notion_url; congruence|]); cbn [message].
  - rewrite <- (append_empty_r ("Notion URL retrieval failed: " ++ href)) at 2.
    apply starts_with_app.
  - rewrite <- append_assoc'. apply starts_with_app.
Qed.

(** X9. Nothing is logged exactly when every anchor whose href contains
    [evernote://] got a Notion URL. *)
Theorem log_empty_iff (E : Env) (tags : list Tag) :
  (resolve_string_properties E tags).2 = [] <->
  forall tag href,
    tag ∈ tags -> name tag = "a" -> tag_get tag "href" = Some href ->
    Str.contains "evernote://" href = true ->
    exists notion_url, _get_notion_url E href = Ok (Some notion_url).
Proof.
  split.
  - intros Hlog tag href Htag Hname Hget Hint.
    destruct (_get_notion_url E href) as [[u|]|e] eqn:Hurl; [by exists u|exfalso..].
    + assert (LogRecord ERROR ("Notion URL retrieval failed: " ++ href)
              ∈ (resolve_string_properties E tags).2) as Hin; [|by rewrite Hlog in Hin; apply elem_of_nil in Hin].
      unfold resolve_string_properties. rewrite foldl_step_log. simpl.
      apply elem_of_concat. eexists. split.
      * apply list_elem_of_fmap. exists tag. split; [done|]. by apply list_elem_of_filter.
      * rewrite (resolve_link_no_match E tag href Hget Hint Hurl). simpl. left.
    + assert (LogRecord ERROR ("Notion URL retrieval failed: " ++ href
                               ++ " with exception " ++ str_exn e)
              ∈ (resolve_string_properties E tags).2) as Hin; [|by rewrite Hlog in Hin; apply elem_of_nil in Hin].
      unfold resolve_string_properties. rewrite foldl_step_log. simpl.
      apply elem_of_concat. eexists. split.
      * apply list_elem_of_fmap. exists tag. split; [done|]. by apply list_elem_of_filter.
      * rewrite (resolve_link_raised E tag href e Hget Hint Hurl). simpl. left.
  - intros Hall. unfold resolve_string_properties. rewrite foldl_step_log. simpl.
    induction tags as [|tag tags IH]; [done|].
    assert (concat (map (fun tag => (_resolve_link E tag).2)
                      (filter (fun tag => name tag = "a") tags)) = []) as Hrest.
    { apply IH. intros tag' href Htag'. apply Hall. by right. }
    destruct (decide (name tag = "a")) as [Hname|Hname].
    + rewrite filter_cons_True by done. simpl. rewrite Hrest, app_nil_r.
      destruct (resolve_link_cases E tag)
        as [[_ ->]|(href & Hget & _ & [[_ ->]|[Hint [[Hnone _]|[(u & _ & ->)|(e & Hraise & _)]]]])];
        try done;
        destruct (Hall tag href ltac:(left) Hname Hget Hint) as [u Hu]; congruence.
    + by rewrite filter_cons_False.
Qed.

Lemma log_records_witness :
  levelname (LogRecord ERROR ("Notion URL retrieval failed: " ++ listed_href)) = ERROR
  /\ exists tag href,
      tag ∈ [bold; anchor listed_href] /\ name tag = "a"
      /\ tag_get tag "href" = Some href
      /\ Str.contains "evernote://" href = true
      /\ (forall notion_url, _get_notion_url demo_env href <> Ok (Some notion_url))
      /\ Str.starts_with ("Notion URL retrieval failed: " ++ href)
           (message (LogRecord ERROR ("Notion URL retrieval failed: " ++ listed_href)))
         = true.
Proof.
  apply (log_records demo_env [bold; anchor listed_href]
           (LogRecord ERROR ("Notion URL retrieval failed: " ++ listed_href))).
  vm_compute. left.
Defined.

(* ===================================================================== *)
(** ** Internal links: the title and the page *)
(* ===================================================================== *)

Lemma resolve_link_found (E : Env) (tag : Tag) (href notion_url : string) :
  tag_get tag "href" = Some href ->
  Str.contains "evernote://" href = true ->
  _get_notion_url E href = Ok (Some notion_url) ->
  _resolve_link E tag = (RTuple ["a"; notion_url], []).
Proof.
  intros Hget Hin Hfound. unfold _resolve_link. rewrite Hget.
  destruct href as [|c s]; [discriminate|]. by rewrite Hin, Hfound.
Qed.

Lemma resolve_anchor (E : Env) (tag : Tag) (u : string) (logged : list log_record) :
  name tag = "a" ->
  _resolve_link E tag = (RTuple ["a"; u], logged) ->
  resolve_string_properties E [tag] = ({[ ["a"; u] ]}, logged).
Proof.
  intros Hname Hlink. unfold resolve_string_properties; simpl. unfold step.
  rewrite (tag_map_anchor E tag Hname), Hlink; simpl. f_equal. set_solver.
Qed.

(** X10. An internal link the whole way: the href is a key of the links
    file, and the first page of the search results whose title is the
    unescaped title of the file comes after pages with other titles.
    Then the anchor yields the link property with the URL of that page
    and nothing is logged. *)
Theorem internal_link_resolved (E : Env) (tag : Tag) (href title : string)
    (d : links) (pre post : list page) (r : page) :
  tag_get tag "href" = Some href ->
  Str.contains "evernote://" href = true ->
  links_dict E = Ok d ->
  dict_get d href = Some title ->
  notion_search E (Str.dquote ++ unescape E title ++ Str.dquote) = Ok (pre ++ r :: post)%list ->
  Forall (other_title (unescape E title)) pre ->
  plain_text r = Ok (unescape E title) ->
  _resolve_link E tag = (RTuple ["a"; url r], [])
  /\ (name tag = "a" -> resolve_string_properties E [tag] = ({[ ["a"; url r] ]}, [])).
Proof.
  intros Hget Hin Hd Htitle Hsearch Hpre Hr.
  assert (_resolve_link E tag = (RTuple ["a"; url r], [])) as Hlink.
  { apply (resolve_link_found E tag href); [done..|].
    unfold _get_notion_url, _get_evernote_title. rewrite Hd; simpl. rewrite Htitle; simpl.
    unfold _get_notion_url_from_title. rewrite Hsearch; simpl.
    by apply first_titled_found. }
  split; [done|]. intros Hname. by apply resolve_anchor.
Qed.

Lemma internal_link_resolved_witness :
  _resolve_link demo_env (anchor "evernote:///view/1/s1/bbbb-2222/bbbb-2222/")
  = (RTuple ["a"; "https://www.notion.so/qa-0123"], []).
Proof.
  apply (internal_link_resolved demo_env
           (anchor "evernote:///view/1/s1/bbbb-2222/bbbb-2222/")
           "evernote:///view/1/s1/bbbb-2222/bbbb-2222/" "Q&amp;A" demo_links
           [] [] (mkPage (Ok "Q&A") "https://www.notion.so/qa-0123")).
  - reflexivity.
  - reflexivity.
  - reflexivity.
  - reflexivity.
  - reflexivity.
  - constructor.
  - reflexivity.
Defined.


(** X11. A page of the search results whose title cannot be read (it
    has no [Title] property, or an empty title) and that comes before
    any page with the title makes the title search raise; the anchor
    then yields no property and the exception is logged, even when a
    later page has the title. *)
Theorem unreadable_title_raises (E : Env) (title : string)
    (pre post : list page) (r : page) (e : exn) :
  notion_search E (Str.dquote ++ unescape E title ++ Str.dquote) = Ok (pre ++ r :: post)%list ->
  Forall (other_title (unescape E title)) pre ->
  plain_text r = Raise e ->
  _get_notion_url_from_title E title = Raise e
  /\ (forall tag href,
        tag_get tag "href" = Some href ->
        Str.contains "evernote://" href = true ->
        _get_evernote_title E href = Ok title ->
        _resolve_link E tag
        = (RNone,
           [LogRecord ERROR ("Notion URL retrieval failed: " ++ href
                             ++ " with exception " ++ str_exn e)])).
Proof.
  intros Hsearch Hpre Hr.
  assert (_get_notion_url_from_title E title = Raise e) as Hraise.
  { unfold _get_notion_url_from_title. rewrite Hsearch; simpl.
    rewrite (first_titled_skip _ _ _ Hpre). simpl. by rewrite Hr. }
  split; [done|]. intros tag href Hget Hin Htitle.
  apply resolve_link_raised; [done..|].
  unfold _get_notion_url. by rewrite Htitle.
Qed.

Lemma unreadable_title_raises_witness :
  _get_notion_url_from_title untitled_env "Groceries" = Raise (Exn "KeyError" "'Title'")
  /\ _resolve_link untitled_env (anchor listed_href)
     = (RNone,
        [LogRecord ERROR ("Notion URL retrieval failed: " ++ listed_href
                          ++ " with exception 'Title'")]).
Proof.
  destruct (unreadable_title_raises untitled_env "Groceries" []
              [mkPage (Ok "Groceries") "https://www.notion.so/groceries-89ab"]
              (mkPage (Raise (Exn "KeyError" "'Title'")) "https://www.notion.so/row-4567")
              (Exn "KeyError" "'Title'") eq_refl ltac:(constructor) eq_refl)
    as [Hraise Hlink].
  split; [exact Hraise|].
  apply (Hlink (anchor listed_href) listed_href); reflexivity.
Defined.

Lemma index_neg2_IndexError {A : Type} (l : list A) (e : exn) :
  index_neg2 l = Raise e -> e = IndexError.
Proof. unfold index_neg2. destruct (rev l) as [|? [|? ?]]; congruence. Qed.

Lemma evernote_id_of_IndexError (evernote_url : string) (e : exn) :
  evernote_id_of evernote_url = Raise e -> e = IndexError.
Proof.
  unfold evernote_id_of.
  destruct (index_neg2 (Str.split "/" evernote_url)) as [seg|e'] eqn:Hseg; [done|].
  simpl. intros [= <-]. by apply index_neg2_IndexError in Hseg.
Qed.


(** X12. When the links file cannot be loaded, or holds the empty
    dictionary, the title lookup raises for every link (the load error,
    or [IndexError]); an anchor with an internal href then yields no
    property and logs the exception. *)
Theorem links_file_unusable (E : Env) (e : exn) (evernote_url : string) :
  links_dict E = Raise e \/ (links_dict E = Ok [] /\ e = IndexError) ->
  _get_evernote_title E evernote_url = Raise e
  /\ (forall tag,
        tag_get tag "href" = Some evernote_url ->
        Str.contains "evernote://" evernote_url = true ->
        _resolve_link E tag
        = (RNone,
           [LogRecord ERROR ("Notion URL retrieval failed: " ++ evernote_url
                             ++ " with exception " ++ str_exn e)])).
Proof.
  intros Hfile.
  assert (_get_evernote_title E evernote_url = Raise e) as Hraise.
  { unfold _get_evernote_title. destruct Hfile as [->|[-> ->]]; [done|]. simpl.
    destruct (evernote_id_of evernote_url) as [evernote_id|e] eqn:Hid; [done|].
    simpl. by rewrite (evernote_id_of_IndexError _ _ Hid). }
  split; [done|]. intros tag Hget Hin.
  apply resolve_link_raised; [done..|].
  unfold _get_notion_url. by rewrite Hraise.
Qed.

Lemma links_file_unusable_witness :
  _get_evernote_title no_links_env listed_href = Raise IndexError
  /\ _resolve_link no_links_env (anchor listed_href)
     = (RNone,
        [LogRecord ERROR ("Notion URL retrieval failed: " ++ listed_href
                          ++ " with exception list index out of range")]).
Proof.
  destruct (links_file_unusable no_links_env IndexError listed_href
              (or_intror (conj eq_refl eq_refl)))
    as [Hraise Hlink].
  split; [exact Hraise|].
  apply (Hlink (anchor listed_href)); reflexivity.
Defined.


Lemma dict_get_elem_of (d : links) (key value : string) :
  dict_get d key = Some value -> (key, value) ∈ d.
Proof.
  induction d as [|[k v] d IH]; simpl; [done|].
  destruct (String.eqb_spec k key) as [->|_].
  - intros [= ->]. left.
  - intros Hget. right. by apply IH.
Qed.

Lemma elem_of_matching_values (evernote_id : string) (d : links) (value : string) :
  value ∈ matching_values evernote_id d <->
  exists key, (key, value) ∈ d /\ Str.contains evernote_id (Str.lower key) = true.
Proof.
  unfold matching_values. change (map snd ?l) with (snd <$> l).
  rewrite list_elem_of_fmap. split.
  - intros ([k v] & -> & [Hk Hin]%list_elem_of_filter). by exists k.
  - intros (key & Hin & Hk). exists (key, value). split; [done|].
    by apply list_elem_of_filter.
Qed.

Lemma index_0_elem_of {A : Type} (l : list A) (x : A) :
  index_0 l = Ok x -> x ∈ l.
Proof. destruct l; simpl; [done|]. intros [= ->]. left. Qed.

(** X13. A title that the lookup returns is a value of the links file:
    that of the key equal to the link, or, when the link is no key, that
    of a key whose lower-case form contains the identifier of the link. *)
Theorem evernote_title_from_file (E : Env) (evernote_url title : string) :
  _get_evernote_title E evernote_url = Ok title ->
  exists d key,
    links_dict E = Ok d /\ (key, title) ∈ d
    /\ (key = evernote_url
        \/ (dict_get d evernote_url = None
            /\ exists evernote_id,
                evernote_id_of evernote_url = Ok evernote_id
                /\ Str.contains evernote_id (Str.lower key) = true)).
Proof.
  unfold _get_evernote_title.
  destruct (links_dict E) as [d|e]; [|done]. simpl.
  destruct (dict_get d evernote_url) as [t|] eqn:Hget.
  - intros [= ->]. exists d, evernote_url. split; [done|].
    split; [by apply dict_get_elem_of|by left].
  - destruct (evernote_id_of evernote_url) as [evernote_id|e] eqn:Hid; [|done]. simpl.
    intros (key & Hin & Hk)%index_0_elem_of%elem_of_matching_values.
    exists d, key. split; [done|]. split; [done|]. right. split; [done|].
    by exists evernote_id.
Qed.

Lemma evernote_title_from_file_witness :
  exists d key,
    links_dict id_env = Ok d /\ (key, "Second") ∈ d
    /\ (key = "evernote:///view/ABC/"
        \/ (dict_get d "evernote:///view/ABC/" = None
            /\ exists evernote_id,
                evernote_id_of "evernote:///view/ABC/" = Ok evernote_id
                /\ Str.contains evernote_id (Str.lower key) = true)).
Proof.
  apply (evernote_title_from_file id_env "evernote:///view/ABC/" "Second").
  reflexivity.
Defined.


Lemma last_two {A : Type} (l : list A) :
  2 <= length l -> exists segs seg last, l = (segs ++ [seg; last])%list.
Proof.
  intros Hlen.
  destruct (rev l) as [|last [|seg segs]] eqn:Hrev.
  - apply (f_equal (@length A)) in Hrev. rewrite length_rev in Hrev. simpl in Hrev. lia.
  - apply (f_equal (@length A)) in Hrev. rewrite length_rev in Hrev. simpl in Hrev. lia.
  - exists (rev segs), seg, last.
    rewrite <- (rev_involutive l), Hrev. simpl. by rewrite <- app_assoc.
Qed.

Lemma internal_has_slash (href : string) :
  Str.contains "evernote://" href = true -> Str.contains "/" href = true.
Proof.
  intros (pre & post & ->)%contains_true.
  replace (pre ++ "evernote://" ++ post)
    with ((pre ++ "evernote:") ++ "/" ++ ("/" ++ post)).
  - apply contains_app.
  - by rewrite append_assoc'.
Qed.

Lemma split_segments_of (evernote_url : string) :
  Str.contains "/" evernote_url = true ->
  exists segs seg last, Str.split "/" evernote_url = (segs ++ [seg; last])%list.
Proof. intros Hslash. apply last_two. by apply split_two. Qed.

(** X14. Taking the identifier from a link raises [IndexError] exactly
    when the link has no slash; a link that contains [evernote://] always
    has an identifier, the segment before its last slash in lower case. *)
Theorem evernote_id_needs_slash (evernote_url : string) :
  (evernote_id_of evernote_url = Raise IndexError <-> Str.contains "/" evernote_url = false)
  /\ (Str.contains "evernote://" evernote_url = true ->
      exists segs seg last,
        Str.split "/" evernote_url = (segs ++ [seg; last])%list
        /\ evernote_id_of evernote_url = Ok (Str.lower seg)).
Proof.
  split; [split|].
  - intros Hraise. destruct (Str.contains "/" evernote_url) eqn:Hslash; [|done].
    destruct (split_segments_of _ Hslash) as (segs & seg & last & Hsplit).
    by rewrite (evernote_id_of_segments _ _ _ _ Hsplit) in Hraise.
  - intros Hslash. unfold evernote_id_of.
    by rewrite (split_one "/" evernote_url Hslash).
  - intros Hin. apply internal_has_slash in Hin.
    destruct (split_segments_of _ Hin) as (segs & seg & last & Hsplit).
    exists segs, seg, last. split; [done|]. by apply (evernote_id_of_segments _ segs _ last).
Qed.


Lemma join_elem_of (sep : ascii) (l : list string) (w : string) :
  w ∈ l -> exists pre post, join sep l = pre ++ w ++ post.
Proof.
  induction l as [|w' l IH]; [by intros ?%elem_of_nil|].
  intros [->|Hin]%elem_of_cons.
  - destruct l as [|w'' l].
    + exists "", "". simpl. by rewrite append_empty, append_empty_r.
    + exists "", (String sep (join sep (w'' :: l))). by rewrite append_empty.
  - destruct l as [|w'' l]; [by apply elem_of_nil in Hin|].
    destruct (IH Hin) as (pre & post & Hjoin).
    exists (w' ++ String sep pre), post.
    change (join sep (w' :: w'' :: l)) with (w' ++ String sep (join sep (w'' :: l))).
    by rewrite Hjoin, append_assoc', append_cons.
Qed.

Lemma index_neg2_elem_of {A : Type} (l : list A) (x : A) :
  index_neg2 l = Ok x -> x ∈ l.
Proof.
  unfold index_neg2. destruct (rev l) as [|y [|z r]] eqn:Hrev; try done.
  intros [= ->]. apply list_elem_of_In, in_rev. rewrite Hrev. right. by left.
Qed.

Lemma slash_lower_char (c : ascii) :
  Ascii.eqb "/" (Str.lower_char c) = Ascii.eqb "/" c.
Proof. destruct c as [[] [] [] [] [] [] [] []]; reflexivity. Qed.

Lemma slash_lower (s : string) :
  Str.contains "/" (Str.lower s) = Str.contains "/" s.
Proof.
  induction s as [|c s IH]; [done|].
  change (Str.lower (String c s)) with (String (Str.lower_char c) (Str.lower s)).
  change (has_char "/" (String (Str.lower_char c) (Str.lower s)) = has_char "/" (String c s)).
  rewrite !has_char_cons, slash_lower_char. by f_equal.
Qed.

(** X15. The identifier taken from a link has no slash, is in lower
    case, and occurs in the lower-case form of the link. *)
Theorem evernote_id_shape (evernote_url evernote_id : string) :
  evernote_id_of evernote_url = Ok evernote_id ->
  Str.contains "/" evernote_id = false
  /\ Str.lower evernote_id = evernote_id
  /\ Str.contains evernote_id (Str.lower evernote_url) = true.
Proof.
  unfold evernote_id_of.
  destruct (index_neg2 (Str.split "/" evernote_url)) as [seg|e] eqn:Hseg; [|done].
  simpl. intros [= <-]. apply index_neg2_elem_of in Hseg.
  split; [|split].
  - rewrite slash_lower.
    pose proof (split_segments "/" evernote_url) as Hall.
    rewrite Forall_forall in Hall. by apply Hall.
  - apply lower_idemp.
  - destruct (join_elem_of "/" _ _ Hseg) as (pre & post & Hjoin).
    rewrite join_split in Hjoin. rewrite Hjoin, !lower_app. apply contains_app.
Qed.

Lemma evernote_id_shape_witness :
  Str.contains "/" "cccc-3333" = false
  /\ Str.lower "cccc-3333" = "cccc-3333"
  /\ Str.contains "cccc-3333" (Str.lower "evernote:///view/1/s1/CCCC-3333/cccc-3333/") = true.
Proof.
  apply (evernote_id_shape "evernote:///view/1/s1/CCCC-3333/cccc-3333/" "cccc-3333").
  reflexivity.
Defined.


Lemma matching_values_nil (evernote_id : string) (d : links) :
  matching_values evernote_id d = [] -> no_match evernote_id d.
Proof.
  intros Hnil. apply Forall_forall. intros [k v] Hin. simpl.
  destruct (Str.contains evernote_id (Str.lower k)) eqn:Hk; [|done].
  assert (v ∈ matching_values evernote_id d) as Hv.
  { apply elem_of_matching_values. by exists k. }
  rewrite Hnil in Hv. by apply elem_of_nil in Hv.
Qed.

(** X16. With a links file that loads, the title lookup of a link that
    contains [evernote://] can only fail with [IndexError], and only
    when the link is no key and no key contains its identifier. *)
Theorem title_lookup_failure (E : Env) (d : links) (evernote_url : string) (e : exn) :
  links_dict E = Ok d ->
  Str.contains "evernote://" evernote_url = true ->
  _get_evernote_title E evernote_url = Raise e ->
  e = IndexError
  /\ dict_get d evernote_url = None
  /\ exists segs seg last,
      Str.split "/" evernote_url = (segs ++ [seg; last])%list
      /\ no_match (Str.lower seg) d.
Proof.
  intros Hd Hin. unfold _get_evernote_title. rewrite Hd; simpl.
  destruct (dict_get d evernote_url) as [title|]; [done|].
  apply internal_has_slash in Hin.
  destruct (split_segments_of _ Hin) as (segs & seg & last & Hsplit).
  rewrite (evernote_id_of_segments _ _ _ _ Hsplit); simpl.
  destruct (matching_values (Str.lower seg) d) as [|v vs] eqn:Hvalues; [|done].
  simpl. intros [= <-]. split; [done|]. split; [done|].
  exists segs, seg, last. split; [done|]. by apply matching_values_nil.
Qed.

Lemma title_lookup_failure_witness :
  IndexError = IndexError
  /\ dict_get demo_links missing_href = None
  /\ exists segs seg last,
      Str.split "/" missing_href = (segs ++ [seg; last])%list
      /\ no_match (Str.lower seg) demo_links.
Proof.
  apply (title_lookup_failure demo_env demo_links missing_href IndexError);
    reflexivity.
Defined.

(** X17. A link that is no key and whose segment before the last slash
    is empty (the href [evernote://] is one) matches every key: the
    lookup returns the title of the first entry of the file. *)
Theorem empty_identifier_first_title (E : Env) (evernote_url key title : string)
    (d : links) (segs : list string) (last : string) :
  links_dict E = Ok ((key, title) :: d) ->
  dict_get ((key, title) :: d) evernote_url = None ->
  Str.split "/" evernote_url = (segs ++ [""; last])%list ->
  _get_evernote_title E evernote_url = Ok title.
Proof.
  intros Hd Hget Hsplit. unfold _get_evernote_title. rewrite Hd; cbn [bind].
  rewrite Hget, (evernote_id_of_segments _ _ _ _ Hsplit); cbn [bind].
  apply (matching_values_first _ [] d key title); [constructor|].
  apply contains_empty.
Qed.

Lemma empty_identifier_first_title_witness :
  _get_evernote_title demo_env "evernote://" = Ok "Groceries".
Proof.
  apply (empty_identifier_first_title demo_env "evernote://"
           "evernote:///view/1/s1/aaaa-1111/aaaa-1111/" "Groceries"
           [("evernote:///view/1/s1/bbbb-2222/bbbb-2222/", "Q&amp;A")]
           ["evernote:"] "");
    reflexivity.
Defined.


(** X18. The search by identifier ignores letter case: when the link is
    no key and some key contains the segment before the last slash of
    the link in any letter case, the lookup returns a title of the file,
    that of a key containing the identifier, and does not raise. *)
Theorem fallback_ignores_case (E : Env) (d : links) (evernote_url : string)
    (segs : list string) (seg last key value before seg' after : string) :
  links_dict E = Ok d ->
  dict_get d evernote_url = None ->
  Str.split "/" evernote_url = (segs ++ [seg; last])%list ->
  (key, value) ∈ d ->
  key = before ++ seg' ++ after ->
  Str.lower seg' = Str.lower seg ->
  exists title key',
    _get_evernote_title E evernote_url = Ok title
    /\ (key', title) ∈ d
    /\ Str.contains (Str.lower seg) (Str.lower key') = true.
Proof.
  intros Hd Hget Hsplit Hin -> Hcase.
  unfold _get_evernote_title. rewrite Hd; cbn [bind].
  rewrite Hget, (evernote_id_of_segments _ _ _ _ Hsplit); cbn [bind].
  assert (value ∈ matching_values (Str.lower seg) d) as Hvalue.
  { apply elem_of_matching_values. exists (before ++ seg' ++ after). split; [done|].
    rewrite !lower_app, Hcase. apply contains_app. }
  destruct (matching_values (Str.lower seg) d) as [|title titles] eqn:Hvalues;
    [by apply elem_of_nil in Hvalue|].
  assert (title ∈ matching_values (Str.lower seg) d) as Htitle
    by (rewrite Hvalues; left).
  apply elem_of_matching_values in Htitle as (key' & Hkey' & Hcontains).
  by exists title, key'.
Qed.

Lemma fallback_ignores_case_witness :
  exists title key',
    _get_evernote_title demo_env "evernote:///view/9/s9/AAAA-1111/AAAA-1111/" = Ok title
    /\ (key', title) ∈ demo_links
    /\ Str.contains (Str.lower "AAAA-1111") (Str.lower key') = true.
Proof.
  apply (fallback_ignores_case demo_env demo_links
           "evernote:///view/9/s9/AAAA-1111/AAAA-1111/"
           ["evernote:"; ""; ""; "view"; "9"; "s9"; "AAAA-1111"] "AAAA-1111" ""
           "evernote:///view/1/s1/aaaa-1111/aaaa-1111/" "Groceries"
           "evernote:///view/1/s1/" "aaaa-1111" "/aaaa-1111/").
  - reflexivity.
  - reflexivity.
  - reflexivity.
  - left.
  - reflexivity.
  - reflexivity.
Defined.


Lemma first_titled_decided (title : string) (results more : list page) :
  first_titled title results <> Ok None ->
  first_titled title (results ++ more) = first_titled title results.
Proof.
  induction results as [|r results IH]; [done|]. simpl.
  destruct (plain_text r) as [t|e]; [|done]. simpl.
  by destruct (String.eqb t title).
Qed.

(** X19. The pages are read in order and the first page that has the
    title, or whose title cannot be read, decides: when the search of a
    title gives a URL or raises, it gives the same with any pages added
    after the results. *)
Theorem first_match_decides (E E' : Env) (title : string) (results more : list page) :
  unescape E' title = unescape E title ->
  notion_search E (Str.dquote ++ unescape E title ++ Str.dquote) = Ok results ->
  notion_search E' (Str.dquote ++ unescape E title ++ Str.dquote)
    = Ok (results ++ more)%list ->
  _get_notion_url_from_title E title <> Ok None ->
  _get_notion_url_from_title E' title = _get_notion_url_from_title E title.
Proof.
  unfold _get_notion_url_from_title. intros -> -> ->. simpl.
  apply first_titled_decided.
Qed.

Lemma first_match_decides_witness :
  _get_notion_url_from_title
    (mkEnv (extract_color demo_env) unescape_amp (Ok demo_links)
       (fun _ => Ok (demo_pages ++ [mkPage (Ok "Q&A") "https://www.notion.so/qa-copy"])%list))
    "Q&amp;A"
  = _get_notion_url_from_title demo_env "Q&amp;A".
Proof.
  apply (first_match_decides demo_env
           (mkEnv (extract_color demo_env) unescape_amp (Ok demo_links)
              (fun _ => Ok (demo_pages
                            ++ [mkPage (Ok "Q&A") "https://www.notion.so/qa-copy"])%list))
           "Q&amp;A" demo_pages [mkPage (Ok "Q&A") "https://www.notion.so/qa-copy"]).
  - reflexivity.
  - reflexivity.
  - reflexivity.
  - discriminate.
Defined.

(* ===================================================================== *)
(** ** The patterns of a span *)
(* ===================================================================== *)

Lemma all_chars_app (p : ascii -> bool) (a b : string) :
  Str.all_chars p (a ++ b) = Str.all_chars p a && Str.all_chars p b.
Proof.
  induction a as [|c a IH]; [done|]. rewrite append_cons. simpl.
  by rewrite IH, andb_assoc.
Qed.

Lemma declares_extends (key value style before after : string) :
  Str.all_chars (fun c => negb (Ascii.eqb c Str.newline)) before = true ->
  declares key value style ->
  declares key value (before ++ style ++ after).
Proof.
  intros Hbefore (before' & ws & after' & -> & Hbefore' & Hws).
  exists (before ++ before'), ws, (after' ++ after). split; [|split; [|done]].
  - by rewrite !append_assoc'.
  - by rewrite all_chars_app, Hbefore, Hbefore'.
Qed.

(** X20. The patterns are not anchored to a whole declaration: when a
    style gives the bold (or italic) property, so does the style with any
    text after it and any text without a line break before it. The style
    [--x-font-weight:bolder] is bold. *)
Theorem declaration_extends (E : Env) (tag tag' : Tag) (style before after : string) :
  tag_get tag "style" = Some style ->
  tag_get tag' "style" = Some (before ++ style ++ after) ->
  Str.all_chars (fun c => negb (Ascii.eqb c Str.newline)) before = true ->
  (["b"] ∈ _resolve_span E tag -> ["b"] ∈ _resolve_span E tag')
  /\ (["i"] ∈ _resolve_span E tag -> ["i"] ∈ _resolve_span E tag').
Proof.
  intros Hstyle Hstyle' Hbefore.
  assert (style <> "" -> before ++ style ++ after <> "") as Hne.
  { intros Hs. destruct before; [destruct style|]; done. }
  split; intros Hp; apply elem_of_resolve_span in Hp
    as (s & Hs & Hne' & [(color & _ & ?)|[[Hb ?]|[Hi ?]]]); try done;
    rewrite Hstyle in Hs; injection Hs as <-;
    apply elem_of_resolve_span; exists (before ++ style ++ after);
    (split; [done|]); (split; [by apply Hne|]).
  - right; left. split; [|done].
    apply bold_declared, declares_extends; [done|]. by apply bold_declared.
  - right; right. split; [|done].
    apply italic_declared, declares_extends; [done|]. by apply italic_declared.
Qed.

Lemma declaration_extends_witness :
  ["b"] ∈ _resolve_span demo_env (span "--x-font-weight:bolder").
Proof.
  apply (declaration_extends demo_env (span "font-weight:bold")
           (span "--x-font-weight:bolder") "font-weight:bold" "--x-" "er"
           eq_refl eq_refl eq_refl).
  vm_compute. left.
Defined.


Lemma strip_prefix_first_line (key line rest r : string) :
  Str.all_chars (fun c => negb (Ascii.eqb c Str.newline)) key = true ->
  Str.strip_prefix key (line ++ String Str.newline rest) = Some r ->
  Str.starts_with key line = true.
Proof.
  revert line. induction key as [|a key IH]; intros line Hkey; [done|].
  simpl in Hkey. apply andb_true_iff in Hkey as [Ha Hkey].
  destruct line as [|b line].
  - rewrite append_empty. simpl.
    destruct (Ascii.eqb a Str.newline); [done|discriminate].
  - rewrite append_cons. simpl.
    destruct (Ascii.eqb a b); [|discriminate]. by apply IH.
Qed.

Lemma re_match_decl_first_line (key value line rest : string) :
  key <> "" ->
  Str.all_chars (fun c => negb (Ascii.eqb c Str.newline)) key = true ->
  Str.contains key line = false ->
  re_match_decl key value (line ++ String Str.newline rest) = false.
Proof.
  intros Hne Hkey. induction line as [|c line IH]; intros Hline.
  - rewrite append_empty. simpl. rewrite orb_false_r.
    unfold declared_here.
    destruct (Str.strip_prefix key (String Str.newline rest)) as [r|] eqn:Hr; [|done].
    apply (strip_prefix_first_line key "" rest r Hkey) in Hr.
    destruct key; done.
  - simpl in Hline. apply orb_false_iff in Hline as [Hhere Hlater].
    rewrite append_cons. simpl. apply orb_false_iff. split.
    + unfold declared_here.
      destruct (Str.strip_prefix key (String c (line ++ String Str.newline rest)))
        as [r|] eqn:Hr; [|done].
      rewrite <- append_cons in Hr.
      apply (strip_prefix_first_line key (String c line) rest r Hkey) in Hr.
      congruence.
    + destruct (Ascii.eqb c Str.newline); [done|]. by apply IH.
Qed.


(** X21. Only a declaration that starts on the first line of the style
    counts: when the text before the first line break of the style does
    not contain [font-weight:], the span is not bold, whatever follows
    the line break; likewise for [font-style:] and italic. *)
Theorem declaration_after_line_break (E : Env) (tag : Tag) (line rest : string) :
  tag_get tag "style" = Some (line ++ String Str.newline rest) ->
  (Str.contains "font-weight:" line = false -> ["b"] ∉ _resolve_span E tag)
  /\ (Str.contains "font-style:" line = false -> ["i"] ∉ _resolve_span E tag).
Proof.
  intros Hstyle.
  split; intros Hline Hp; apply elem_of_resolve_span in Hp
    as (s & Hs & _ & [(color & _ & ?)|[[Hb ?]|[Hi ?]]]); try done;
    rewrite Hstyle in Hs; injection Hs as <-.
  - by rewrite re_match_decl_first_line in Hb.
  - by rewrite re_match_decl_first_line in Hi.
Qed.

Lemma declaration_after_line_break_witness :
  ["b"] ∉ _resolve_span demo_env
            (span ("color:red;" ++ String Str.newline "font-weight:bold")).
Proof.
  apply (declaration_after_line_break demo_env
           (span ("color:red;" ++ String Str.newline "font-weight:bold"))
           "color:red;" "font-weight:bold" eq_refl).
  reflexivity.
Defined.

(** X22. A span yields each property at most once and in one order: the
    color first, then bold, then italic. Its list is a sublist of
    [[("h", color), ("b",), ("i",)]]. *)
Theorem span_properties_ordered (E : Env) (tag : Tag) :
  NoDup (_resolve_span E tag)
  /\ exists color, sublist (_resolve_span E tag) [["h"; color]; ["b"]; ["i"]].
Proof.
  unfold _resolve_span.
  destruct (tag_get tag "style") as [[|c s]|].
  - split; [constructor|]. exists "". apply sublist_nil_l.
  - destruct (extract_color E (String c s)) as [color|],
      (re_match_decl "font-weight:" "bold" (String c s)),
      (re_match_decl "font-style:" "italic" (String c s)); simpl;
      (split; [repeat constructor; set_solver|]);
      first [exists color | exists ""];
      repeat first [apply sublist_nil_l | apply sublist_skip | apply sublist_cons].
  - split; [constructor|]. exists "". apply sublist_nil_l.
Qed.
